(** * blueprint-lib, package json: the target-state codec and the
      version-discovery parser

    A shallow embedding of [json/blueprint.go].  Go strings and byte
    slices are [string]s (sequences of 8-bit [ascii] values), the two
    package-level Go maps [toString] and [toID] are [gmap]s, the enum
    [TargetState] is the Go [int] it is declared as, and the calls to
    [encoding/json] are modelled by a tokenizer, a parser and the
    type-directed decoding that [json.Unmarshal] performs by reflection. *)

From Stdlib Require Import ZArith NArith Ascii String List Bool Lia.
From stdpp Require Import gmap strings list fin_maps.
Import ListNotations.

Local Open Scope string_scope.
Local Open Scope Z_scope.

(** The double quote character, and documents written with apostrophes in
    place of double quotes: [json_lit] turns every apostrophe into a double
    quote, so that JSON text can be written as a plain string literal. *)
Definition dquote : ascii := "034"%char.

Fixpoint json_lit (s : string) : string :=
  match s with
  | EmptyString => EmptyString
  | String c rest =>
      String (if Ascii.eqb c "'" then dquote else c) (json_lit rest)
  end.

(** ** Errors

    Go [error] values are kept structurally.  [SyntaxError] and
    [UnmarshalTypeError] are the two errors of [encoding/json] the package
    can see.  Of the first the message and the offset are left out; of the
    second the [Value] and the [Type] are kept and the [Offset], [Struct]
    and [Field], which say where in the text the error arose, are left
    out.  Two errors that are equal here may differ there in those.  [wrapError] is what [fmt.Errorf] builds for a format with
    one [%s] and a final [%w].  [errors.Wrap] (of github.com/pkg/errors)
    builds two layers: a [withMessage], which holds the cause and the
    message, inside a [withStack], which adds the call stack (the stack
    itself is left out here). *)

Inductive error : Type :=
| SyntaxError
| UnmarshalTypeError (Value : string) (Type_ : string)
| wrapError (format : string) (arg : string) (err : error)
| withMessage (cause : error) (msg : string)
| withStack (err : error).

(** [Sprintf format arg w]: [format] with its [%s] replaced by [arg] and its
    [%w] by [w], every other character copied. *)
Fixpoint Sprintf (format arg w : string) : string :=
  match format with
  | EmptyString => EmptyString
  | String c rest =>
      match rest with
      | String d rest' =>
          if (Ascii.eqb c "%" && Ascii.eqb d "s")%bool then arg +:+ Sprintf rest' arg w
          else if (Ascii.eqb c "%" && Ascii.eqb d "w")%bool then w +:+ Sprintf rest' arg w
          else String c (Sprintf rest arg w)
      | EmptyString => String c EmptyString
      end
  end.

(** The [Error()] method.  [jsonText] gives the text of the errors that
    [encoding/json] itself produces. *)
Fixpoint Error (jsonText : error -> string) (e : error) : string :=
  match e with
  | wrapError format arg err => Sprintf format arg (Error jsonText err)
  | withMessage cause msg => msg +:+ ": " +:+ Error jsonText cause
  | withStack err => Error jsonText err
  | _ => jsonText e
  end.

(** [errors.Unwrap]: one step down the chain, by the [Unwrap] method each
    of the three wrappers has. *)
Definition Unwrap (e : error) : option error :=
  match e with
  | wrapError _ _ err => Some err
  | withMessage cause _ => Some cause
  | withStack err => Some err
  | _ => None
  end.

(** [errors.Cause] of github.com/pkg/errors: the innermost error below the
    layers of [errors.Wrap]. *)


Fixpoint Cause (e : error) : error :=
  match e with
  | withMessage cause _ => Cause cause
  | withStack err => Cause err
  | _ => e
  end.

(** [errors.Wrap] for an error that is not nil. *)
Definition errors_Wrap (err : error) (message : string) : error :=
  withStack (withMessage err message).

(** ** API identifiers and the envelope *)

Definition BlueprintApi := string.

Definition V1 : BlueprintApi := "v1".
Definition TestEmpty : BlueprintApi := "test/empty".

Record GeneralBlueprint : Type := mkGeneralBlueprint { API : BlueprintApi }.

(** ** The target state *)

(** [type TargetState int]; the constants are numbered by [iota]. *)
Definition TargetState := Z.

Definition TargetStatePresent : TargetState := 0.
Definition TargetStateAbsent : TargetState := 1.
Definition TargetStateIgnore : TargetState := 2.

Definition toString : gmap Z string :=
  <[TargetStatePresent := "present"]> (<[TargetStateAbsent := "absent"]> ∅).

Definition toID : gmap string Z :=
  <["present" := TargetStatePresent]> (<["absent" := TargetStateAbsent]> ∅).

(** Indexing a Go map: the zero value of the element type for a missing key. *)
Definition toString_at (state : TargetState) : string :=
  default "" (toString !! state).

Definition toID_at (j : string) : TargetState :=
  default 0 (toID !! j).

Definition TargetState_String (state : TargetState) : string :=
  toString_at state.

(** [MarshalJSON]: the buffer starts as one quote, the map entry and a second
    quote are written to it; the error is always [nil]. *)
Definition MarshalJSON (state : TargetState) : string * option error :=
  let buffer := String dquote EmptyString in
  let buffer := buffer +:+ toString_at state in
  let buffer := buffer +:+ String dquote EmptyString in
  (buffer, None).

(** ** encoding/json: the tokenizer

    The scanner of [encoding/json] is a byte-at-a-time state machine; the
    tokenizer below is the same machine cut at token boundaries.  It is a
    fold over the input, so it is total.  Every token is recorded with the
    offsets at which it starts and ends. *)

Inductive token : Type :=
| TLBrace | TRBrace | TLBrack | TRBrack | TComma | TColon
| TString (body : list ascii)
| TNumber (lit : list ascii)
| TTrue | TFalse | TNull.

(** The states of the scanner inside a number ([stateNeg], [state0],
    [state1], [stateDot], [stateDot0], [stateE], [stateESign], [stateE0]). *)
Inductive numstate := stateNeg | state0 | state1 | stateDot | stateDot0
                    | stateE | stateESign | stateE0.

(** Inside a string: plain, after a backslash, or inside a [\u] escape with
    [n] hexadecimal digits still to come. *)
Inductive strstate := inString | inStringEsc | inStringEscU (n : nat).

Inductive lexmode : Type :=
| LIdle
| LStr (start : nat) (body_rev : list ascii) (st : strstate)
| LNum (start : nat) (lit_rev : list ascii) (st : numstate)
| LWord (start : nat) (expect : list ascii) (tok : token).

Definition byte_of (c : ascii) : N := N_of_ascii c.

Definition in_range (lo hi : ascii) (c : ascii) : bool :=
  ((byte_of lo <=? byte_of c) && (byte_of c <=? byte_of hi))%N.

Definition is_digit (c : ascii) : bool := in_range "0" "9" c.
Definition is_digit19 (c : ascii) : bool := in_range "1" "9" c.
Definition is_hex (c : ascii) : bool :=
  is_digit c || in_range "a" "f" c || in_range "A" "F" c.

(** [isSpace]: space, tab, carriage return, line feed. *)
Definition isSpace (c : ascii) : bool :=
  let n := byte_of c in
  ((n =? 32) || (n =? 9) || (n =? 13) || (n =? 10))%N.

Definition ltoken : Type := nat * nat * token.

(** One byte in the idle state: the beginning of a token. *)
Definition idle_step (pos : nat) (c : ascii) : option (list ltoken * lexmode) :=
  if isSpace c then Some ([], LIdle)
  else if Ascii.eqb c "{" then Some ([(pos, S pos, TLBrace)], LIdle)
  else if Ascii.eqb c "}" then Some ([(pos, S pos, TRBrace)], LIdle)
  else if Ascii.eqb c "[" then Some ([(pos, S pos, TLBrack)], LIdle)
  else if Ascii.eqb c "]" then Some ([(pos, S pos, TRBrack)], LIdle)
  else if Ascii.eqb c "," then Some ([(pos, S pos, TComma)], LIdle)
  else if Ascii.eqb c ":" then Some ([(pos, S pos, TColon)], LIdle)
  else if Ascii.eqb c dquote then Some ([], LStr pos [] inString)
  else if Ascii.eqb c "-" then Some ([], LNum pos [c] stateNeg)
  else if Ascii.eqb c "0" then Some ([], LNum pos [c] state0)
  else if is_digit19 c then Some ([], LNum pos [c] state1)
  else if Ascii.eqb c "t" then Some ([], LWord pos ["r"; "u"; "e"]%char TTrue)
  else if Ascii.eqb c "f" then Some ([], LWord pos ["a"; "l"; "s"; "e"]%char TFalse)
  else if Ascii.eqb c "n" then Some ([], LWord pos ["u"; "l"; "l"]%char TNull)
  else None.

(** The number machine: [Some (Some st)] continues the literal, [Some None]
    says the literal ended before [c], [None] is a syntax error. *)
Definition num_step (st : numstate) (c : ascii) : option (option numstate) :=
  let is_e := (Ascii.eqb c "e" || Ascii.eqb c "E")%bool in
  match st with
  | stateNeg =>
      if Ascii.eqb c "0" then Some (Some state0)
      else if is_digit19 c then Some (Some state1)
      else None
  | state1 =>
      if is_digit c then Some (Some state1)
      else if Ascii.eqb c "." then Some (Some stateDot)
      else if is_e then Some (Some stateE)
      else Some None
  | state0 =>
      if Ascii.eqb c "." then Some (Some stateDot)
      else if is_e then Some (Some stateE)
      else Some None
  | stateDot =>
      if is_digit c then Some (Some stateDot0) else None
  | stateDot0 =>
      if is_digit c then Some (Some stateDot0)
      else if is_e then Some (Some stateE)
      else Some None
  | stateE =>
      if (Ascii.eqb c "+" || Ascii.eqb c "-")%bool then Some (Some stateESign)
      else if is_digit c then Some (Some stateE0)
      else None
  | stateESign =>
      if is_digit c then Some (Some stateE0) else None
  | stateE0 =>
      if is_digit c then Some (Some stateE0) else Some None
  end.

(** A number may end the input only in one of these states. *)
Definition num_final (st : numstate) : bool :=
  match st with
  | state0 | state1 | stateDot0 | stateE0 => true
  | _ => false
  end.

Definition is_escape_char (c : ascii) : bool :=
  existsb (Ascii.eqb c) ["b"; "f"; "n"; "r"; "t"; "\"; "/"; dquote]%char.

Definition str_step (st : strstate) (c : ascii) : option strstate :=
  match st with
  | inString =>
      if Ascii.eqb c "\" then Some inStringEsc
      else if (byte_of c <? 32)%N then None
      else Some inString
  | inStringEsc =>
      if is_escape_char c then Some inString
      else if Ascii.eqb c "u" then Some (inStringEscU 4)
      else None
  | inStringEscU n =>
      if is_hex c then
        match n with
        | S (S m) => Some (inStringEscU (S m))
        | _ => Some inString
        end
      else None
  end.

Definition lex_step (mode : lexmode) (pos : nat) (c : ascii)
  : option (list ltoken * lexmode) :=
  match mode with
  | LIdle => idle_step pos c
  | LStr start body st =>
      match st with
      | inString =>
          if Ascii.eqb c dquote
          then Some ([(start, S pos, TString (rev body))], LIdle)
          else match str_step st c with
               | Some st' => Some ([], LStr start (c :: body) st')
               | None => None
               end
      | _ =>
          match str_step st c with
          | Some st' => Some ([], LStr start (c :: body) st')
          | None => None
          end
      end
  | LNum start lit st =>
      match num_step st c with
      | Some (Some st') => Some ([], LNum start (c :: lit) st')
      | Some None =>
          match idle_step pos c with
          | Some (toks, mode') => Some ((start, pos, TNumber (rev lit)) :: toks, mode')
          | None => None
          end
      | None => None
      end
  | LWord start expect tok =>
      match expect with
      | [] => None
      | e :: expect' =>
          if Ascii.eqb c e then
            match expect' with
            | [] => Some ([(start, S pos, tok)], LIdle)
            | _ => Some ([], LWord start expect' tok)
            end
          else None
      end
  end.

(** The end of the input: only between tokens, or in a number that may end. *)
Definition lex_eof (mode : lexmode) (pos : nat) : option (list ltoken) :=
  match mode with
  | LIdle => Some []
  | LNum start lit st =>
      if num_final st then Some [(start, pos, TNumber (rev lit))] else None
  | _ => None
  end.

Fixpoint lex_from (mode : lexmode) (pos : nat) (s : string) : option (list ltoken) :=
  match s with
  | EmptyString => lex_eof mode pos
  | String c rest =>
      match lex_step mode pos c with
      | Some (toks, mode') =>
          match lex_from mode' (S pos) rest with
          | Some more => Some (toks ++ more)%list
          | None => None
          end
      | None => None
      end
  end.

Definition lex (s : string) : option (list ltoken) := lex_from LIdle 0%nat s.

(** ** encoding/json: string literals

    [unquote] is [unquoteBytes] on the text between the quotes: escapes are
    replaced, a [\u] escape becomes the UTF-8 encoding of its code point
    (a surrogate pair becomes one code point, a lone surrogate U+FFFD), and
    every byte that does not start a valid UTF-8 sequence becomes U+FFFD. *)

Definition ascii_of (n : N) : ascii := ascii_of_N n.

Definition hexval (c : ascii) : option N :=
  if is_digit c then Some (byte_of c - 48)%N
  else if in_range "a" "f" c then Some (byte_of c - 97 + 10)%N
  else if in_range "A" "F" c then Some (byte_of c - 65 + 10)%N
  else None.

Definition hex4 (a b c d : ascii) : option N :=
  match hexval a, hexval b, hexval c, hexval d with
  | Some x, Some y, Some z, Some w => Some (((x * 16 + y) * 16 + z) * 16 + w)%N
  | _, _, _, _ => None
  end.

(** [utf8.EncodeRune]. *)
Definition RuneError : N := 65533.

Definition EncodeRune (r : N) : list ascii :=
  let enc3 (r : N) :=
    [ascii_of (224 + r / 4096); ascii_of (128 + (r / 64) mod 64);
     ascii_of (128 + r mod 64)]%N in
  if (r <=? 127)%N then [ascii_of r]
  else if (r <=? 2047)%N then [ascii_of (192 + r / 64); ascii_of (128 + r mod 64)]%N
  else if ((1114111 <? r) || ((55296 <=? r) && (r <=? 57343)))%N then enc3 RuneError
  else if (r <=? 65535)%N then enc3 r
  else [ascii_of (240 + r / 262144); ascii_of (128 + (r / 4096) mod 64);
        ascii_of (128 + (r / 64) mod 64); ascii_of (128 + r mod 64)]%N.

(** [utf16.IsSurrogate] and [utf16.DecodeRune]. *)
Definition IsSurrogate (r : N) : bool := ((55296 <=? r) && (r <? 57344))%N.

Definition utf16_DecodeRune (r1 r2 : N) : N :=
  if ((55296 <=? r1) && (r1 <? 56320) && (56320 <=? r2) && (r2 <? 57344))%N
  then ((r1 - 55296) * 1024 + (r2 - 56320) + 65536)%N
  else RuneError.

(** The value of a one-character escape. *)
Definition escape_value (c : ascii) : option ascii :=
  if Ascii.eqb c "b" then Some (ascii_of 8)
  else if Ascii.eqb c "f" then Some (ascii_of 12)
  else if Ascii.eqb c "n" then Some (ascii_of 10)
  else if Ascii.eqb c "r" then Some (ascii_of 13)
  else if Ascii.eqb c "t" then Some (ascii_of 9)
  else if (Ascii.eqb c "\" || Ascii.eqb c "/" || Ascii.eqb c "'" || Ascii.eqb c dquote)%bool
  then Some c
  else None.

(** The tests of [utf8.DecodeRune] on the bytes after a lead byte. *)
Definition cont (c : ascii) : bool := in_range (ascii_of 128) (ascii_of 191) c.

Definition lead2 (c : ascii) : bool := in_range (ascii_of 194) (ascii_of 223) c.

Definition lead3 (c c1 : ascii) : bool :=
  let n := byte_of c in
  if (n =? 224)%N then in_range (ascii_of 160) (ascii_of 191) c1
  else if (n =? 237)%N then in_range (ascii_of 128) (ascii_of 159) c1
  else ((225 <=? n) && (n <=? 239))%N && cont c1.

Definition lead4 (c c1 : ascii) : bool :=
  let n := byte_of c in
  if (n =? 240)%N then in_range (ascii_of 144) (ascii_of 191) c1
  else if (n =? 244)%N then in_range (ascii_of 128) (ascii_of 143) c1
  else ((241 <=? n) && (n <=? 243))%N && cont c1.

Definition cons_to {A} (x : list A) (r : option (list A)) : option (list A) :=
  match r with
  | Some l => Some (x ++ l)%list
  | None => None
  end.

Fixpoint unquote (l : list ascii) : option (list ascii) :=
  match l with
  | [] => Some []
  | c :: r =>
      if Ascii.eqb c "\" then
        match r with
        | [] => None
        | e :: r1 =>
            if Ascii.eqb e "u" then
              match r1 with
              | h1 :: h2 :: h3 :: h4 :: r2 =>
                  match hex4 h1 h2 h3 h4 with
                  | None => None
                  | Some rr =>
                      if IsSurrogate rr then
                        match r2 with
                        | b :: u :: l1 :: l2 :: l3 :: l4 :: r3 =>
                            let rr1 :=
                              if (Ascii.eqb b "\" && Ascii.eqb u "u")%bool
                              then hex4 l1 l2 l3 l4 else None in
                            match rr1 with
                            | Some rr1 =>
                                let dec := utf16_DecodeRune rr rr1 in
                                if (dec =? RuneError)%N
                                then cons_to (EncodeRune RuneError) (unquote r2)
                                else cons_to (EncodeRune dec) (unquote r3)
                            | None => cons_to (EncodeRune RuneError) (unquote r2)
                            end
                        | _ => cons_to (EncodeRune RuneError) (unquote r2)
                        end
                      else cons_to (EncodeRune rr) (unquote r2)
                  end
              | _ => None
              end
            else
              match escape_value e with
              | Some v => cons_to [v] (unquote r1)
              | None => None
              end
        end
      else if (Ascii.eqb c dquote || (byte_of c <? 32)%N)%bool then None
      else if (byte_of c <? 128)%N then cons_to [c] (unquote r)
      else
        match r with
        | c1 :: r1 =>
            if (lead2 c && cont c1)%bool then cons_to [c; c1] (unquote r1)
            else
              match r1 with
              | c2 :: r2 =>
                  if (lead3 c c1 && cont c2)%bool then cons_to [c; c1; c2] (unquote r2)
                  else
                    match r2 with
                    | c3 :: r3 =>
                        if (lead4 c c1 && cont c2 && cont c3)%bool
                        then cons_to [c; c1; c2; c3] (unquote r3)
                        else cons_to (EncodeRune RuneError) (unquote r)
                    | [] => cons_to (EncodeRune RuneError) (unquote r)
                    end
              | [] => cons_to (EncodeRune RuneError) (unquote r)
              end
        | [] => Some (EncodeRune RuneError)
        end
  end.

(** ** encoding/json: values

    A parsed document.  A number keeps its literal.  An object is the list
    of its members in the order of the text, duplicates included; each
    member keeps, next to its decoded key and its value, the exact text of
    the value, which is what a custom [UnmarshalJSON] method is handed. *)

Unset Elimination Schemes.
Inductive json : Type :=
| JNull
| JBool (b : bool)
| JNumber (lit : string)
| JString (s : string)
| JArray (elems : list json)
| JObject (members : list (string * string * json)).
Set Elimination Schemes.

Definition member : Type := string * string * json.

Definition m_key (m : member) : string := fst (fst m).
Definition m_raw (m : member) : string := snd (fst m).
Definition m_val (m : member) : json := snd m.

(** What is open: an array with its elements so far, or an object with its
    members so far and the key that waits for its value.  [start] is the
    offset of the opening bracket. *)
Inductive frame : Type :=
| FArr (start : nat) (elems_rev : list json)
| FObj (start : nat) (members_rev : list member) (key : string).

Inductive expect : Type :=
| XValue | XValueOrClose | XKeyOrClose | XKey | XColon | XCommaOrClose
| XDone (v : json).

Definition pstate : Type := expect * list frame.

(** [maxNestingDepth] of the scanner. *)
Definition maxNestingDepth : N := 10000.

Section Parser.
Variable input : string.

(** A value that spans the offsets [s] to [e] is complete. *)
Definition complete (v : json) (s e : nat) (stack : list frame) : pstate :=
  match stack with
  | [] => (XDone v, [])
  | FArr st acc :: rest => (XCommaOrClose, FArr st (v :: acc) :: rest)
  | FObj st acc k :: rest =>
      (XCommaOrClose, FObj st ((k, substring s (e - s) input, v) :: acc) k :: rest)
  end.

Definition push (f : frame) (x : expect) (stack : list frame) : option pstate :=
  if (N.of_nat (length (f :: stack)) <=? maxNestingDepth)%N
  then Some (x, f :: stack) else None.

Definition begin_value (tok : ltoken) (stack : list frame) : option pstate :=
  let '(s, e, t) := tok in
  match t with
  | TNull => Some (complete JNull s e stack)
  | TTrue => Some (complete (JBool true) s e stack)
  | TFalse => Some (complete (JBool false) s e stack)
  | TNumber lit => Some (complete (JNumber (string_of_list_ascii lit)) s e stack)
  | TString body =>
      match unquote body with
      | Some u => Some (complete (JString (string_of_list_ascii u)) s e stack)
      | None => None
      end
  | TLBrack => push (FArr s []) XValueOrClose stack
  | TLBrace => push (FObj s [] EmptyString) XKeyOrClose stack
  | _ => None
  end.

Definition begin_key (tok : ltoken) (stack : list frame) : option pstate :=
  match tok, stack with
  | (_, _, TString body), FObj st acc _ :: rest =>
      match unquote body with
      | Some u => Some (XColon, FObj st acc (string_of_list_ascii u) :: rest)
      | None => None
      end
  | _, _ => None
  end.

Definition parse_step (ps : pstate) (tok : ltoken) : option pstate :=
  let '(x, stack) := ps in
  let '(s, e, t) := tok in
  match x with
  | XValue => begin_value tok stack
  | XValueOrClose =>
      match t, stack with
      | TRBrack, FArr st acc :: rest => Some (complete (JArray (rev acc)) st e rest)
      | _, _ => begin_value tok stack
      end
  | XKeyOrClose =>
      match t, stack with
      | TRBrace, FObj st acc _ :: rest => Some (complete (JObject (rev acc)) st e rest)
      | _, _ => begin_key tok stack
      end
  | XKey => begin_key tok stack
  | XColon =>
      match t with
      | TColon => Some (XValue, stack)
      | _ => None
      end
  | XCommaOrClose =>
      match t, stack with
      | TComma, FArr _ _ :: _ => Some (XValue, stack)
      | TComma, FObj _ _ _ :: _ => Some (XKey, stack)
      | TRBrack, FArr st acc :: rest => Some (complete (JArray (rev acc)) st e rest)
      | TRBrace, FObj st acc _ :: rest => Some (complete (JObject (rev acc)) st e rest)
      | _, _ => None
      end
  | XDone _ => None
  end.

Fixpoint parse_tokens (ps : pstate) (toks : list ltoken) : option pstate :=
  match toks with
  | [] => Some ps
  | tok :: rest =>
      match parse_step ps tok with
      | Some ps' => parse_tokens ps' rest
      | None => None
      end
  end.
End Parser.

(** [checkValid] and the reading of the one value of the input: [None] is
    the [*SyntaxError] of the scanner. *)
Definition parse_json (data : string) : option json :=
  match lex data with
  | None => None
  | Some toks =>
      match parse_tokens data (XValue, []) toks with
      | Some (XDone v, _) => Some v
      | _ => None
      end
  end.

(** ** encoding/json: decoding into Go values

    [json.Unmarshal] first checks the whole input ([parse_json]) and then
    stores the value into its target by reflection on the target's type.
    A value of the wrong shape for its target is not fatal: the first such
    [*UnmarshalTypeError] is saved ([savedError]), the value is skipped and
    the decoding goes on.  An error that is returned at once ([returned])
    ends the decoding: nothing more is stored.
    The target is updated in place, so each storing function takes the
    current value of its target and gives the new one. *)

Record dstate : Type := mkDstate {
  savedError : option error;
  returned : option error
}.

Definition dstate0 : dstate := mkDstate None None.

Definition saveError (e : error) (d : dstate) : dstate :=
  match savedError d with
  | None => mkDstate (Some e) (returned d)
  | Some _ => d
  end.

Definition fail_with (e : error) (d : dstate) : dstate :=
  mkDstate (savedError d) (Some e).

(** What [Unmarshal] returns once the value is stored. *)
Definition outcome (d : dstate) : option error :=
  match returned d with
  | Some e => Some e
  | None => savedError d
  end.

(** The [Value] of an [UnmarshalTypeError]. *)
Definition value_kind (v : json) : string :=
  match v with
  | JNull => "null"
  | JBool _ => "bool"
  | JNumber _ => "number"
  | JString _ => "string"
  | JArray _ => "array"
  | JObject _ => "object"
  end.

(** A target of kind string: a string is stored, null changes nothing,
    everything else is a type error. *)
Definition store_string (tyname : string) (cur : string) (v : json) (d : dstate)
  : string * dstate :=
  match v with
  | JString s => (s, d)
  | JNull => (cur, d)
  | _ => (cur, saveError (UnmarshalTypeError (value_kind v) tyname) d)
  end.

(** [foldName]: ASCII letters in upper case, the long s (U+017F) as [S] and
    the Kelvin sign (U+212A) as [K], the two runes outside ASCII whose case
    orbit holds an ASCII letter.  Every other rune outside ASCII folds to a
    rune outside ASCII, which is left as it is here: all field names of this
    package are ASCII, and only equality with their folded form is used. *)
Fixpoint foldName_list (l : list ascii) : list ascii :=
  match l with
  | [] => []
  | c :: r =>
      if (byte_of c <? 128)%N then
        (if in_range "a" "z" c then ascii_of (byte_of c - 32) else c) :: foldName_list r
      else
        match r with
        | c1 :: r1 =>
            if ((byte_of c =? 197) && (byte_of c1 =? 191))%N
            then "S"%char :: foldName_list r1
            else
              match r1 with
              | c2 :: r2 =>
                  if ((byte_of c =? 226) && (byte_of c1 =? 132) && (byte_of c2 =? 170))%N
                  then "K"%char :: foldName_list r2
                  else c :: foldName_list r
              | [] => c :: foldName_list r
              end
        | [] => [c]
        end
  end.

Definition foldName (s : string) : string :=
  string_of_list_ascii (foldName_list (list_ascii_of_string s)).

(** The field an object key names: the field with exactly this name, or
    else the first one with the same folded name. *)
Definition lookupField (fields : list string) (key : string) : option string :=
  match find (String.eqb key) fields with
  | Some f => Some f
  | None => find (fun f => String.eqb (foldName f) (foldName key)) fields
  end.

(** The members of an object stored into a struct, one after the other;
    [set f cur m d] stores member [m] into field [f].  Keys that name no
    field are skipped. *)
Definition store_members {T : Type} (fields : list string)
    (set : string -> T -> member -> dstate -> T * dstate)
    (cur : T) (ms : list member) (d : dstate) : T * dstate :=
  fold_left
    (fun (acc : T * dstate) (m : member) =>
       let '(cur, d) := acc in
       match returned d with
       | Some _ => (cur, d)
       | None =>
           match lookupField fields (m_key m) with
           | Some f => set f cur m d
           | None => (cur, d)
           end
       end)
    ms (cur, d).

(** A target of kind struct. *)
Definition store_struct {T : Type} (tyname : string) (fields : list string)
    (set : string -> T -> member -> dstate -> T * dstate)
    (cur : T) (v : json) (d : dstate) : T * dstate :=
  match v with
  | JObject ms => store_members fields set cur ms d
  | JNull => (cur, d)
  | _ => (cur, saveError (UnmarshalTypeError (value_kind v) tyname) d)
  end.

(** [json.Unmarshal(data, &target)], given how the target's type stores. *)
Definition Unmarshal {T : Type} (store : T -> json -> dstate -> T * dstate)
    (data : string) (target : T) : T * option error :=
  match parse_json data with
  | None => (target, Some SyntaxError)
  | Some v =>
      let '(target', d) := store target v dstate0 in
      (target', outcome d)
  end.

(** ** TargetState.UnmarshalJSON *)

Definition UnmarshalJSON_format : string :=
  "cannot unmarshal value %s to a TargetState: %w".

(** The method has a pointer receiver: it takes the value [state] points to
    and gives the value it points to afterwards, with the error. *)
Definition UnmarshalJSON (state : TargetState) (b : string)
  : TargetState * option error :=
  let j := EmptyString in
  let '(j, err) := Unmarshal (store_string "string") b j in
  match err with
  | Some err => (state, Some (wrapError UnmarshalJSON_format b err))
  | None => (toID_at j, None)
  end.

(** ** ParseBlueprint *)

Definition GeneralBlueprint_zero : GeneralBlueprint := mkGeneralBlueprint EmptyString.

Definition GeneralBlueprint_fields : list string := ["blueprintApi"].

Definition set_GeneralBlueprint (f : string) (cur : GeneralBlueprint) (m : member)
    (d : dstate) : GeneralBlueprint * dstate :=
  if String.eqb f "blueprintApi" then
    let '(a, d') := store_string "json.BlueprintApi" (API cur) (m_val m) d in
    (mkGeneralBlueprint a, d')
  else (cur, d).

Definition store_GeneralBlueprint :=
  store_struct "json.GeneralBlueprint" GeneralBlueprint_fields set_GeneralBlueprint.

Definition ParseBlueprint_hint : string :=
  "could not parse blueprint. Please check the blueprint for validity".

Definition ParseBlueprint (rawBlueprint : string) : GeneralBlueprint * option error :=
  let preparsedBlueprint := GeneralBlueprint_zero in
  let '(preparsedBlueprint, err) :=
    Unmarshal store_GeneralBlueprint rawBlueprint preparsedBlueprint in
  match err with
  | Some err => (GeneralBlueprint_zero, Some (errors_Wrap err ParseBlueprint_hint))
  | None => (preparsedBlueprint, None)
  end.

(** ** The version 1 document

    A Go slice is its backing array as far as it is known ([data]) and its
    length ([len]); what lies in [data] beyond [len] is what an earlier,
    longer content left there.  The decoder stores array element [i] into
    the slot [i] of the backing array without clearing it first. *)

Record slice (T : Type) : Type := mkSlice { data : list T; len : nat }.
Arguments mkSlice {T} _ _.
Arguments data {T} _.
Arguments len {T} _.

Definition elems {T : Type} (s : slice T) : list T := take (len s) (data s).

Definition nil_slice {T : Type} : slice T := mkSlice [] 0%nat.

Record TargetDogu : Type := mkTargetDogu {
  Dogu_Name : string;
  Dogu_Version : string;
  Dogu_TargetState : TargetState
}.

Record TargetPackage : Type := mkTargetPackage {
  Package_Name : string;
  Package_Version : string;
  Package_TargetState : TargetState
}.

(** [map[string]map[string]interface{}]; a value of the empty interface is
    kept as the JSON value it was decoded from. *)
Definition RegistryConfig : Type := gmap string (gmap string json).

Record BlueprintV1 : Type := mkBlueprintV1 {
  bpGeneralBlueprint : GeneralBlueprint;
  ID : string;
  CesAppVersion : string;
  Dogus : slice TargetDogu;
  Packages : slice TargetPackage;
  bpRegistryConfig : RegistryConfig;
  bpRegistryConfigAbsent : slice string;
  bpRegistryConfigEncrypted : RegistryConfig
}.

Definition TargetDogu_zero : TargetDogu := mkTargetDogu EmptyString EmptyString 0.
Definition TargetPackage_zero : TargetPackage := mkTargetPackage EmptyString EmptyString 0.
Definition BlueprintV1_zero : BlueprintV1 :=
  mkBlueprintV1 GeneralBlueprint_zero EmptyString EmptyString
                nil_slice nil_slice ∅ nil_slice ∅.

Section Slices.
Context {T : Type} (zeroT : T) (storeT : T -> json -> dstate -> T * dstate).

(** The loop of the decoder over the elements of an array, [i] being the
    index of the next one, and what it does after the last. *)
Fixpoint store_elems (i : nat) (vs : list json) (s : slice T) (d : dstate)
  : slice T * dstate :=
  match vs with
  | [] =>
      let s := if (i <? len s)%nat then mkSlice (data s) i else s in
      (if (i =? 0)%nat then nil_slice else s, d)
  | v :: rest =>
      let s :=
        if (len s <=? i)%nat
        then mkSlice (data s ++ replicate (S i - length (data s)) zeroT)%list (S i)
        else s in
      let '(x, d') := storeT (nth i (data s) zeroT) v d in
      let s := mkSlice (<[i := x]> (data s)) (len s) in
      match returned d' with
      | Some _ => (s, d')
      | None => store_elems (S i) rest s d'
      end
  end.

(** A target of kind slice. *)
Definition store_slice (tyname : string) (cur : slice T) (v : json) (d : dstate)
  : slice T * dstate :=
  match v with
  | JArray vs => store_elems 0 vs cur d
  | JNull => (nil_slice, d)
  | _ => (cur, saveError (UnmarshalTypeError (value_kind v) tyname) d)
  end.
End Slices.

Section Maps.
Context {V : Type} (zeroV : V) (storeV : V -> json -> dstate -> V * dstate).

(** A target of kind map with string keys: every member is decoded into a
    fresh element, which is then put under the member's key. *)
Definition store_map (tyname : string) (cur : gmap string V) (v : json) (d : dstate)
  : gmap string V * dstate :=
  match v with
  | JObject ms =>
      fold_left
        (fun (acc : gmap string V * dstate) (m : member) =>
           let '(cur, d) := acc in
           match returned d with
           | Some _ => (cur, d)
           | None =>
               let '(x, d') := storeV zeroV (m_val m) d in
               match returned d' with
               | Some _ => (cur, d')
               | None => (<[m_key m := x]> cur, d')
               end
           end)
        ms (cur, d)
  | JNull => (∅, d)
  | _ => (cur, saveError (UnmarshalTypeError (value_kind v) tyname) d)
  end.
End Maps.

(** What the decoder does with the error of an [UnmarshalJSON] method, which
    differs between the versions of [encoding/json]: the classic decoder
    returns it at once and stores nothing more; a decoder that goes on
    saves it like a type error, as it is or wrapped ([as_error]), stores
    what follows and reports the first error at the end. *)
Inductive method_error_policy : Type :=
| ReturnAtOnce
| SaveAndGoOn (as_error : error -> error).

(** What is left open about the decoder.  [ParseFloat_ok]: whether
    [strconv.ParseFloat] takes a number literal as a float64 in range
    (floating point is not modelled).  [method_errors]: see above. *)
Record decoder : Type := mkDecoder {
  ParseFloat_ok : string -> bool;
  method_errors : method_error_policy
}.

(** The classic decoder, every number taken to be in range. *)
Definition classic : decoder := mkDecoder (fun _ => true) ReturnAtOnce.

Section V1.
Variable dec : decoder.

(** The first number below [v] that is out of range, as the error the
    decoder saves for it when [v] is stored into an empty interface. *)
Fixpoint interface_error (v : json) : option error :=
  match v with
  | JNumber lit =>
      if ParseFloat_ok dec lit then None
      else Some (UnmarshalTypeError ("number " +:+ lit) "float64")
  | JArray vs =>
      (fix go (l : list json) : option error :=
         match l with
         | [] => None
         | x :: r =>
             match interface_error x with
             | Some e => Some e
             | None => go r
             end
         end) vs
  | JObject ms =>
      (fix go (l : list (string * string * json)) : option error :=
         match l with
         | [] => None
         | m :: r =>
             match interface_error (m_val m) with
             | Some e => Some e
             | None => go r
             end
         end) ms
  | _ => None
  end.

Definition store_interface (cur : json) (v : json) (d : dstate) : json * dstate :=
  (v, match interface_error v with
      | Some e => saveError e d
      | None => d
      end).

Definition store_RegistryConfig : RegistryConfig -> json -> dstate -> RegistryConfig * dstate :=
  store_map ∅ (store_map JNull store_interface "map[string]interface {}")
            "json.RegistryConfig".

(** A field of type [TargetState]: the type has the [UnmarshalJSON]
    method, which is called on the text of the value, whatever its shape.
    What becomes of its error is the decoder's policy. *)
Definition store_TargetState (cur : TargetState) (raw : string) (d : dstate)
  : TargetState * dstate :=
  let '(st, err) := UnmarshalJSON cur raw in
  match err with
  | Some e =>
      (st, match method_errors dec with
           | ReturnAtOnce => fail_with e d
           | SaveAndGoOn as_error => saveError (as_error e) d
           end)
  | None => (st, d)
  end.

Definition name_fields : list string := ["name"; "version"; "targetState"].

Definition set_TargetDogu (f : string) (cur : TargetDogu) (m : member) (d : dstate)
  : TargetDogu * dstate :=
  let raw := m_raw m in
  let v := m_val m in
  if String.eqb f "name" then
    let '(x, d') := store_string "string" (Dogu_Name cur) v d in
    (mkTargetDogu x (Dogu_Version cur) (Dogu_TargetState cur), d')
  else if String.eqb f "version" then
    let '(x, d') := store_string "string" (Dogu_Version cur) v d in
    (mkTargetDogu (Dogu_Name cur) x (Dogu_TargetState cur), d')
  else if String.eqb f "targetState" then
    let '(x, d') := store_TargetState (Dogu_TargetState cur) raw d in
    (mkTargetDogu (Dogu_Name cur) (Dogu_Version cur) x, d')
  else (cur, d).

Definition set_TargetPackage (f : string) (cur : TargetPackage) (m : member) (d : dstate)
  : TargetPackage * dstate :=
  let raw := m_raw m in
  let v := m_val m in
  if String.eqb f "name" then
    let '(x, d') := store_string "string" (Package_Name cur) v d in
    (mkTargetPackage x (Package_Version cur) (Package_TargetState cur), d')
  else if String.eqb f "version" then
    let '(x, d') := store_string "string" (Package_Version cur) v d in
    (mkTargetPackage (Package_Name cur) x (Package_TargetState cur), d')
  else if String.eqb f "targetState" then
    let '(x, d') := store_TargetState (Package_TargetState cur) raw d in
    (mkTargetPackage (Package_Name cur) (Package_Version cur) x, d')
  else (cur, d).

Definition store_TargetDogu := store_struct "json.TargetDogu" name_fields set_TargetDogu.
Definition store_TargetPackage :=
  store_struct "json.TargetPackage" name_fields set_TargetPackage.

Definition BlueprintV1_fields : list string :=
  ["blueprintApi"; "blueprintId"; "cesappVersion"; "dogus"; "packages";
   "registryConfig"; "registryConfigAbsent"; "registryConfigEncrypted"].

Definition set_BlueprintV1 (f : string) (cur : BlueprintV1) (m : member) (d : dstate)
  : BlueprintV1 * dstate :=
  let v := m_val m in
  let '(mkBlueprintV1 g id ces dogus packages rc rca rce) := cur in
  if String.eqb f "blueprintApi" then
    let '(x, d') := set_GeneralBlueprint f g m d in
    (mkBlueprintV1 x id ces dogus packages rc rca rce, d')
  else if String.eqb f "blueprintId" then
    let '(x, d') := store_string "string" id v d in
    (mkBlueprintV1 g x ces dogus packages rc rca rce, d')
  else if String.eqb f "cesappVersion" then
    let '(x, d') := store_string "string" ces v d in
    (mkBlueprintV1 g id x dogus packages rc rca rce, d')
  else if String.eqb f "dogus" then
    let '(x, d') :=
      store_slice TargetDogu_zero store_TargetDogu "[]json.TargetDogu" dogus v d in
    (mkBlueprintV1 g id ces x packages rc rca rce, d')
  else if String.eqb f "packages" then
    let '(x, d') :=
      store_slice TargetPackage_zero store_TargetPackage "[]json.TargetPackage"
                  packages v d in
    (mkBlueprintV1 g id ces dogus x rc rca rce, d')
  else if String.eqb f "registryConfig" then
    let '(x, d') := store_RegistryConfig rc v d in
    (mkBlueprintV1 g id ces dogus packages x rca rce, d')
  else if String.eqb f "registryConfigAbsent" then
    let '(x, d') := store_slice EmptyString (store_string "string") "[]string" rca v d in
    (mkBlueprintV1 g id ces dogus packages rc x rce, d')
  else if String.eqb f "registryConfigEncrypted" then
    let '(x, d') := store_RegistryConfig rce v d in
    (mkBlueprintV1 g id ces dogus packages rc rca x, d')
  else (cur, d).

Definition store_BlueprintV1 :=
  store_struct "json.BlueprintV1" BlueprintV1_fields set_BlueprintV1.

(** Decoding a document into a new [BlueprintV1]:
    [var bp BlueprintV1; err := json.Unmarshal(data, &bp)]. *)
Definition Unmarshal_BlueprintV1 (data : string) : BlueprintV1 * option error :=
  Unmarshal store_BlueprintV1 data BlueprintV1_zero.
End V1.

(** ** The words of the properties

    [names_field f k]: the decoder takes the object key [k] for the field
    named [f], because the two have the same folded name.  For an ASCII key
    that is equality up to the case of the letters. *)
Definition names_field (f k : string) : bool :=
  String.eqb (foldName f) (foldName k).

(** The values a target of kind string takes without an error. *)
Definition string_or_null (v : json) : bool :=
  match v with
  | JString _ | JNull => true
  | _ => false
  end.

(** A member that names [blueprintApi] and holds neither a string nor null. *)
Definition rejected_member (m : member) : bool :=
  names_field "blueprintApi" (m_key m) && negb (string_or_null (m_val m)).

(** The documents on which the version discovery fails although they are
    well-formed: a top-level value that is neither an object nor null, or
    an object with a rejected member. *)
Definition rejected_document (v : json) : bool :=
  match v with
  | JNull => false
  | JObject ms => existsb rejected_member ms
  | _ => true
  end.

(** The error of the first rejected member. *)
Definition first_rejection (ms : list member) : option error :=
  match find rejected_member ms with
  | Some m => Some (UnmarshalTypeError (value_kind (m_val m)) "json.BlueprintApi")
  | None => None
  end.

(** The version a list of members declares: the string of the last member
    that names [blueprintApi] and holds a string, [cur] when there is none. *)
Fixpoint declared_api (ms : list member) (cur : string) : string :=
  match ms with
  | [] => cur
  | m :: rest =>
      declared_api rest
        (if names_field "blueprintApi" (m_key m)
         then match m_val m with
              | JString s => s
              | _ => cur
              end
         else cur)
  end.







(** [keeps_errors d d']: what was saved or returned as an error in [d] is
    not forgotten in [d']. *)
Definition keeps_errors (d d' : dstate) : Prop :=
  (is_Some (savedError d) -> is_Some (savedError d')) /\
  (is_Some (returned d) -> is_Some (returned d')).

(** The values a document gives for blueprintApi, in the order of the text. *)
Definition api_values (ms : list member) : list json :=
  map m_val (List.filter (fun m => names_field "blueprintApi" (m_key m)) ms).

(** The last string of a list of values, [cur] when it holds none. *)
Definition last_string (vs : list json) (cur : string) : string :=
  fold_left (fun a v => match v with JString s => s | _ => a end) vs cur.

(** The first value of a list that is neither a string nor null. *)
Definition first_unfit (vs : list json) : option json :=
  find (fun v => negb (string_or_null v)) vs.

(** * Properties *)

(** ** The two maps *)

Lemma toID_at_spec (j : string) :
  toID_at j =
  if String.eqb j "present" then TargetStatePresent
  else if String.eqb j "absent" then TargetStateAbsent
  else TargetStatePresent.
Proof.
  unfold toID_at, toID.
  destruct (String.eqb_spec j "present") as [-> | Hp]; [reflexivity |].
  rewrite lookup_insert_ne by congruence.
  destruct (String.eqb_spec j "absent") as [-> | Ha]; [reflexivity |].
  rewrite lookup_insert_ne by congruence.
  rewrite lookup_empty. reflexivity.
Qed.

Lemma toString_at_spec (state : TargetState) :
  toString_at state =
  if Z.eqb state TargetStatePresent then "present"
  else if Z.eqb state TargetStateAbsent then "absent"
  else "".
Proof.
  unfold toString_at, toString.
  destruct (Z.eqb_spec state TargetStatePresent) as [-> | Hp]; [reflexivity |].
  rewrite lookup_insert_ne by congruence.
  destruct (Z.eqb_spec state TargetStateAbsent) as [-> | Ha]; [reflexivity |].
  rewrite lookup_insert_ne by congruence.
  rewrite lookup_empty. reflexivity.
Qed.

(** ** Unmarshal into a string, and UnmarshalJSON, by the shape of the input *)

Lemma Unmarshal_string_spec (b j0 : string) :
  Unmarshal (store_string "string") b j0 =
  match parse_json b with
  | None => (j0, Some SyntaxError)
  | Some (JString s) => (s, None)
  | Some JNull => (j0, None)
  | Some v => (j0, Some (UnmarshalTypeError (value_kind v) "string"))
  end.
Proof.
  unfold Unmarshal. destruct (parse_json b) as [[ | | | | | ] | ]; reflexivity.
Qed.

Lemma UnmarshalJSON_spec (state : TargetState) (b : string) :
  UnmarshalJSON state b =
  match parse_json b with
  | None => (state, Some (wrapError UnmarshalJSON_format b SyntaxError))
  | Some (JString s) => (toID_at s, None)
  | Some JNull => (TargetStatePresent, None)
  | Some v =>
      (state, Some (wrapError UnmarshalJSON_format b
                      (UnmarshalTypeError (value_kind v) "string")))
  end.
Proof.
  unfold UnmarshalJSON. rewrite Unmarshal_string_spec.
  destruct (parse_json b) as [[ | | | | | ] | ]; reflexivity.
Qed.

Lemma append_String (c : ascii) (s t : string) :
  String c s +:+ t = String c (s +:+ t).
Proof. reflexivity. Qed.

Lemma append_empty_l (t : string) : EmptyString +:+ t = t.
Proof. reflexivity. Qed.

Lemma append_empty_r (s : string) : s +:+ EmptyString = s.
Proof.
  induction s as [| c s IH]; [reflexivity |].
  rewrite append_String, IH. reflexivity.
Qed.

(** The text of the error of [UnmarshalJSON]: the fixed words around the
    raw bytes, then the text of the cause. *)
Lemma UnmarshalJSON_error_text (jsonText : error -> string) (b : string) (cause : error) :
  Error jsonText (wrapError UnmarshalJSON_format b cause) =
  "cannot unmarshal value " +:+ b +:+ " to a TargetState: " +:+ Error jsonText cause.
Proof.
  cbn [Error]. unfold UnmarshalJSON_format.
  cbn [Sprintf Ascii.eqb Bool.eqb andb].
  rewrite !append_String, !append_empty_l, append_empty_r.
  reflexivity.
Qed.

(** ** The fields of a struct and the keys that name them *)

Example names_field_examples :
  names_field "blueprintApi" "blueprintApi" = true /\
  names_field "blueprintApi" "BlueprintAPI" = true /\
  names_field "blueprintApi" "blueprint_api" = false /\
  names_field "blueprintApi" "blueprintApiX" = false /\
  names_field "targetState" "TARGETSTATE" = true /\
  names_field "dogus" "packages" = false.
Proof. repeat split; vm_compute; reflexivity. Qed.

Lemma String_eqb_sym (a b : string) : String.eqb a b = String.eqb b a.
Proof.
  destruct (String.eqb_spec a b) as [-> | H].
  - symmetry. apply String.eqb_refl.
  - symmetry. apply String.eqb_neq. congruence.
Qed.

(** A key names the field it is looked up as, and that field is one of the
    struct. *)
Lemma lookupField_Some (fields : list string) (k f : string) :
  lookupField fields k = Some f -> In f fields /\ names_field f k = true.
Proof.
  unfold lookupField, names_field.
  destruct (find (String.eqb k) fields) as [f' |] eqn:E.
  - intros [= ->]. apply find_some in E as [Hin Heq].
    apply String.eqb_eq in Heq as ->. split; [exact Hin | apply String.eqb_refl].
  - intros H. apply find_some in H. exact H.
Qed.

Lemma lookupField_GeneralBlueprint (k : string) :
  lookupField GeneralBlueprint_fields k =
  if names_field "blueprintApi" k then Some "blueprintApi" else None.
Proof.
  unfold lookupField, GeneralBlueprint_fields, names_field. cbn [find].
  destruct (String.eqb_spec k "blueprintApi") as [-> | H]; [reflexivity |].
  reflexivity.
Qed.

(** ** The members of an envelope *)

Lemma store_members_nil {T : Type} fields set (cur : T) d :
  store_members fields set cur [] d = (cur, d).
Proof. reflexivity. Qed.

Lemma store_members_cons {T : Type} fields set (cur : T) m ms d :
  store_members fields set cur (m :: ms) d =
  let '(cur', d') :=
    match returned d with
    | Some _ => (cur, d)
    | None =>
        match lookupField fields (m_key m) with
        | Some f => set f cur m d
        | None => (cur, d)
        end
    end in
  store_members fields set cur' ms d'.
Proof.
  unfold store_members. cbn [fold_left].
  destruct (returned d); [reflexivity |].
  destruct (lookupField fields (m_key m)); [| reflexivity].
  destruct (set s cur m d). reflexivity.
Qed.

Lemma store_members_GeneralBlueprint (ms : list member) :
  forall (cur : GeneralBlueprint) (d : dstate),
    returned d = None ->
    store_members GeneralBlueprint_fields set_GeneralBlueprint cur ms d =
    (mkGeneralBlueprint (declared_api ms (API cur)),
     mkDstate (match savedError d with
               | Some e => Some e
               | None => first_rejection ms
               end) None).
Proof.
  induction ms as [| m ms IH]; intros cur d Hd.
  - rewrite store_members_nil. destruct cur as [a], d as [sv rt].
    cbn in *. subst rt. destruct sv; reflexivity.
  - rewrite store_members_cons, Hd, lookupField_GeneralBlueprint.
    cbn [declared_api]. unfold first_rejection. cbn [find].
    unfold rejected_member at 1.
    destruct (names_field "blueprintApi" (m_key m)) eqn:Hn; cbn [andb].
    + unfold set_GeneralBlueprint. cbn [String.eqb Ascii.eqb Bool.eqb].
      destruct (m_val m) eqn:Hv; cbn [store_string string_or_null negb value_kind];
        rewrite IH by (destruct d as [[?|] ?]; exact Hd);
        cbn [API]; unfold saveError, first_rejection;
        destruct d as [[e |] rt]; cbn in *; try rewrite Hv; reflexivity.
    + rewrite IH by exact Hd. reflexivity.
Qed.

(** ** ParseBlueprint, by the shape of the input *)

Lemma ParseBlueprint_spec (b : string) :
  ParseBlueprint b =
  match parse_json b with
  | None => (GeneralBlueprint_zero, Some (withStack (withMessage SyntaxError ParseBlueprint_hint)))
  | Some JNull => (GeneralBlueprint_zero, None)
  | Some (JObject ms) =>
      match first_rejection ms with
      | Some e => (GeneralBlueprint_zero, Some (withStack (withMessage e ParseBlueprint_hint)))
      | None => (mkGeneralBlueprint (declared_api ms EmptyString), None)
      end
  | Some v =>
      (GeneralBlueprint_zero,
       Some (withStack
               (withMessage (UnmarshalTypeError (value_kind v) "json.GeneralBlueprint")
                            ParseBlueprint_hint)))
  end.
Proof.
  unfold ParseBlueprint, Unmarshal.
  destruct (parse_json b) as [[ | | | | | ms] | ]; try reflexivity.
  unfold store_GeneralBlueprint, store_struct.
  rewrite store_members_GeneralBlueprint by reflexivity.
  cbn [savedError dstate0 outcome returned API GeneralBlueprint_zero].
  destruct (first_rejection ms); reflexivity.
Qed.

Lemma first_rejection_None (ms : list member) :
  first_rejection ms = None <-> existsb rejected_member ms = false.
Proof.
  unfold first_rejection. induction ms as [| m ms IH]; cbn [find existsb].
  - split; reflexivity.
  - destruct (rejected_member m); cbn [orb]; [split; discriminate | exact IH].
Qed.

(** What [Unmarshal] itself returns for the envelope: the cause that
    [ParseBlueprint] wraps. *)
Lemma ParseBlueprint_cause (b : string) (e : error) :
  snd (ParseBlueprint b) = Some e ->
  exists cause,
    snd (Unmarshal store_GeneralBlueprint b GeneralBlueprint_zero) = Some cause /\
    e = withStack (withMessage cause ParseBlueprint_hint).
Proof.
  unfold ParseBlueprint.
  destruct (Unmarshal store_GeneralBlueprint b GeneralBlueprint_zero) as [g [c |]];
    cbn [snd]; intros [= <-].
  exists c. split; reflexivity.
Qed.

Lemma declared_api_unnamed (ms : list member) (cur : string) :
  (forall m, In m ms -> names_field "blueprintApi" (m_key m) = false) ->
  declared_api ms cur = cur.
Proof.
  revert cur. induction ms as [| m ms IH]; intros cur H; [reflexivity |].
  cbn [declared_api]. rewrite (H m) by (left; reflexivity).
  apply IH. intros m' Hm'. apply H. right. exact Hm'.
Qed.

Lemma declared_api_app (ms1 ms2 : list member) (cur : string) :
  declared_api (ms1 ++ ms2) cur = declared_api ms2 (declared_api ms1 cur).
Proof.
  revert cur. induction ms1 as [| m ms1 IH]; intros cur; [reflexivity |].
  cbn [declared_api app]. apply IH.
Qed.

Lemma first_rejection_unnamed (ms : list member) :
  (forall m, In m ms -> rejected_member m = false) ->
  first_rejection ms = None.
Proof.
  intros H. apply first_rejection_None.
  induction ms as [| m ms IH]; [reflexivity |].
  cbn [existsb]. rewrite (H m) by (left; reflexivity). cbn [orb].
  apply IH. intros m' Hm'. apply H. right. exact Hm'.
Qed.

(** A declared version comes from the document. *)
Lemma declared_api_origin (ms : list member) (cur : string) :
  declared_api ms cur = cur \/
  exists k raw,
    In (k, raw, JString (declared_api ms cur)) ms /\ names_field "blueprintApi" k = true.
Proof.
  revert cur. induction ms as [| m ms IH]; intros cur; [left; reflexivity |].
  cbn [declared_api].
  destruct (names_field "blueprintApi" (m_key m)) eqn:Hn.
  - destruct m as [[k raw] v]. cbn [m_key m_val fst snd] in *.
    destruct v as [ | | | s | | ];
      try (destruct (IH cur) as [-> | (k' & raw' & Hin & Hk)];
           [left; reflexivity | right; exists k', raw'; split; [right; exact Hin | exact Hk]]).
    destruct (IH s) as [E | (k' & raw' & Hin & Hk)].
    + right. exists k, raw. rewrite E. split; [left; reflexivity | exact Hn].
    + right. exists k', raw'. split; [right; exact Hin | exact Hk].
  - destruct (IH cur) as [-> | (k' & raw' & Hin & Hk)];
      [left; reflexivity | right; exists k', raw'; split; [right; exact Hin | exact Hk]].
Qed.

Lemma Unmarshal_GeneralBlueprint_error (b : string) (cause : error) :
  snd (Unmarshal store_GeneralBlueprint b GeneralBlueprint_zero) = Some cause ->
  Cause cause = cause.
Proof.
  unfold Unmarshal.
  destruct (parse_json b) as [[ | | | | | ms] | ]; cbn; try (intros [= <-]; reflexivity).
  unfold store_members.
  change (fold_left _ ms (GeneralBlueprint_zero, dstate0))
    with (store_members GeneralBlueprint_fields set_GeneralBlueprint
            GeneralBlueprint_zero ms dstate0).
  rewrite store_members_GeneralBlueprint by reflexivity.
  cbn. unfold first_rejection. destruct (find rejected_member ms); intros [= <-].
  reflexivity.
Qed.

(** ** The target-state codec *)

(** C1 (the code departs from it): encoding [TargetStateIgnore] succeeds.
    [toString] has no entry for it, so [MarshalJSON] returns the empty
    quoted string with a nil error, a wire string that is neither of the
    two defined ones, and decoding that string gives [TargetStatePresent]. *)
Theorem MarshalJSON_Ignore_succeeds_with_empty_string :
  MarshalJSON TargetStateIgnore = (json_lit "''", None) /\
  UnmarshalJSON TargetStateIgnore (json_lit "''") = (TargetStatePresent, None).
Proof. split; vm_compute; reflexivity. Qed.

(** C3: for [TargetStatePresent] and [TargetStateAbsent], [MarshalJSON]
    returns no error and [UnmarshalJSON] on the bytes it produced stores the
    original value, whatever the target held before, and returns no error. *)
Theorem TargetState_roundtrip (state before : TargetState) :
  state = TargetStatePresent \/ state = TargetStateAbsent ->
  snd (MarshalJSON state) = None /\
  UnmarshalJSON before (fst (MarshalJSON state)) = (state, None).
Proof.
  intros [-> | ->]; (split; [reflexivity |]);
    rewrite UnmarshalJSON_spec; vm_compute; reflexivity.
Qed.

Lemma TargetState_roundtrip_witness :
  (TargetStateAbsent = TargetStatePresent \/ TargetStateAbsent = TargetStateAbsent) /\
  snd (MarshalJSON TargetStateAbsent) = None /\
  UnmarshalJSON TargetStateIgnore (fst (MarshalJSON TargetStateAbsent))
  = (TargetStateAbsent, None).
Proof.
  split; [right; reflexivity |].
  apply (TargetState_roundtrip TargetStateAbsent TargetStateIgnore).
  right; reflexivity.
Defined.

(** C4: when the wire value is a JSON string, [UnmarshalJSON] returns no
    error and stores Present for the text present, Absent for the text
    absent (both compared exactly) and Present for every other text. *)
Theorem UnmarshalJSON_string (state : TargetState) (b j : string) :
  parse_json b = Some (JString j) ->
  UnmarshalJSON state b =
  (if String.eqb j "present" then TargetStatePresent
   else if String.eqb j "absent" then TargetStateAbsent
   else TargetStatePresent, None).
Proof.
  intros H. rewrite UnmarshalJSON_spec, H, toID_at_spec. reflexivity.
Qed.

Lemma UnmarshalJSON_string_witness :
  parse_json (json_lit "'PRESENT'") = Some (JString "PRESENT") /\
  UnmarshalJSON TargetStateAbsent (json_lit "'PRESENT'") = (TargetStatePresent, None).
Proof.
  split; [vm_compute; reflexivity |].
  apply (UnmarshalJSON_string TargetStateAbsent (json_lit "'PRESENT'") "PRESENT").
  vm_compute; reflexivity.
Defined.

(** The wire values the specification lists. *)
Example UnmarshalJSON_examples (state : TargetState) :
  UnmarshalJSON state (json_lit "'present'") = (TargetStatePresent, None) /\
  UnmarshalJSON state (json_lit "'absent'") = (TargetStateAbsent, None) /\
  UnmarshalJSON state (json_lit "''") = (TargetStatePresent, None) /\
  UnmarshalJSON state (json_lit "'PRESENT'") = (TargetStatePresent, None) /\
  UnmarshalJSON state (json_lit "'whatever'") = (TargetStatePresent, None) /\
  UnmarshalJSON state (json_lit "'absent'") = (TargetStateAbsent, None).
Proof. repeat split; rewrite UnmarshalJSON_spec; vm_compute; reflexivity. Qed.

(** C5, as the code has it: the JSON literal null is not a string, and
    [UnmarshalJSON] takes it without an error and stores Present. *)
Lemma UnmarshalJSON_null_succeeds :
  parse_json "null" = Some JNull /\
  UnmarshalJSON TargetStateAbsent "null" = (TargetStatePresent, None).
Proof. split; vm_compute; reflexivity. Qed.

(** C5 (amended): [UnmarshalJSON] fails exactly when the wire value is
    neither a JSON string nor the literal null (a number, an object, bytes
    that are no JSON at all).  It then leaves the target as it was, and its
    error wraps the error of the inner [json.Unmarshal] under a text that
    holds the raw bytes. *)
Theorem UnmarshalJSON_fails_iff (state : TargetState) (b : string) :
  (snd (UnmarshalJSON state b) <> None <->
   parse_json b <> Some JNull /\ forall j, parse_json b <> Some (JString j)) /\
  (forall e, snd (UnmarshalJSON state b) = Some e ->
     fst (UnmarshalJSON state b) = state /\
     exists cause,
       snd (Unmarshal (store_string "string") b EmptyString) = Some cause /\
       e = wrapError UnmarshalJSON_format b cause /\
       Unwrap e = Some cause /\
       forall jsonText,
         Error jsonText e =
         "cannot unmarshal value " +:+ b +:+ " to a TargetState: " +:+ Error jsonText cause).
Proof.
  rewrite UnmarshalJSON_spec, Unmarshal_string_spec.
  destruct (parse_json b) as [[ | | | | | ] | ]; cbn [fst snd]; split;
    try (split; [intros _; split; [discriminate | intros j; discriminate]
                | intros _; discriminate]);
    try (split; [intros H; now contradiction H | intros [H1 H2]; congruence]);
    try (intros e [= <-]; split; [reflexivity |]; eexists; split; [reflexivity |];
         split; [reflexivity |]; split; [reflexivity |];
         intros jsonText; apply UnmarshalJSON_error_text);
    try (intros e [=]).
Qed.

Lemma UnmarshalJSON_fails_iff_witness :
  snd (UnmarshalJSON TargetStateAbsent "42")
  = Some (wrapError UnmarshalJSON_format "42" (UnmarshalTypeError "number" "string")) /\
  fst (UnmarshalJSON TargetStateAbsent "42") = TargetStateAbsent.
Proof.
  assert (H : snd (UnmarshalJSON TargetStateAbsent "42")
              = Some (wrapError UnmarshalJSON_format "42"
                        (UnmarshalTypeError "number" "string")))
    by (vm_compute; reflexivity).
  split; [exact H |].
  exact (proj1 (proj2 (UnmarshalJSON_fails_iff TargetStateAbsent "42") _ H)).
Defined.

(** ** The version discovery *)

(** C2, as the code has it: the empty object is parsed without an error and
    the [API] of the result is the empty string. *)
Lemma ParseBlueprint_empty_API :
  parse_json "{}" = Some (JObject []) /\
  ParseBlueprint "{}" = (mkGeneralBlueprint EmptyString, None).
Proof. split; vm_compute; reflexivity. Qed.

(** C2 (amended): after a successful parse the [API] is the version the
    document declares, the string of its last member that names blueprintApi
    (up to the case of the letters) and holds a string.  So the [API] is
    either empty or a string the document holds under such a key; nothing
    makes it non-empty when the document declares none. *)
Theorem ParseBlueprint_API_declared (b : string) (gb : GeneralBlueprint) :
  ParseBlueprint b = (gb, None) ->
  (forall ms, parse_json b = Some (JObject ms) -> API gb = declared_api ms EmptyString) /\
  (API gb = EmptyString \/
   exists ms k raw,
     parse_json b = Some (JObject ms) /\
     In (k, raw, JString (API gb)) ms /\
     names_field "blueprintApi" k = true).
Proof.
  rewrite ParseBlueprint_spec.
  destruct (parse_json b) as [[ | | | | | ms] | ]; try discriminate.
  - intros [= <-]. split; [intros ms [=] | left; reflexivity].
  - destruct (first_rejection ms); [discriminate |].
    intros [= <-]. cbn [API]. split; [intros ms' [= <-]; reflexivity |].
    destruct (declared_api_origin ms EmptyString) as [E | (k & raw & Hin & Hk)].
    + left. exact E.
    + right. exists ms, k, raw. split; [reflexivity | split; assumption].
Qed.

Lemma ParseBlueprint_API_declared_witness :
  ParseBlueprint (json_lit "{'blueprintApi':'v0','BlueprintApi':'v1'}")
  = (mkGeneralBlueprint "v1", None) /\
  (API (mkGeneralBlueprint "v1") = EmptyString \/
   exists ms k raw,
     parse_json (json_lit "{'blueprintApi':'v0','BlueprintApi':'v1'}") = Some (JObject ms) /\
     In (k, raw, JString (API (mkGeneralBlueprint "v1"))) ms /\
     names_field "blueprintApi" k = true).
Proof.
  assert (H : ParseBlueprint (json_lit "{'blueprintApi':'v0','BlueprintApi':'v1'}")
              = (mkGeneralBlueprint "v1", None)) by (vm_compute; reflexivity).
  split; [exact H |].
  exact (proj2 (ParseBlueprint_API_declared _ _ H)).
Defined.

(** C6, as the code has it: an array is well-formed JSON and has no
    blueprintApi field, and the version discovery fails on it. *)
Lemma ParseBlueprint_array_fails :
  parse_json "[]" = Some (JArray []) /\
  ParseBlueprint "[]" =
  (GeneralBlueprint_zero,
   Some (withStack (withMessage (UnmarshalTypeError "array" "json.GeneralBlueprint")
                                ParseBlueprint_hint))).
Proof. split; vm_compute; reflexivity. Qed.

(** A blueprintApi field that holds null is present and is no string, and
    the version discovery succeeds on it. *)
Example ParseBlueprint_null_field_succeeds :
  ParseBlueprint (json_lit "{'blueprintApi':null}") = (GeneralBlueprint_zero, None).
Proof. vm_compute; reflexivity. Qed.

(** C6 (amended): [ParseBlueprint] fails exactly when the input is not
    well-formed JSON, or its top-level value is neither an object nor null,
    or a member whose key is blueprintApi up to the case of the letters
    holds a value that is neither a string nor null.  The error it returns
    is what [errors.Wrap] makes of the error of [json.Unmarshal] itself:
    that cause is what [Cause] gives and what [Unwrap] reaches in two
    steps, through the layer that holds the message, and the text of the
    error is the hint to check the blueprint for validity followed by the
    text of the cause. *)
Theorem ParseBlueprint_fails_iff (b : string) :
  (snd (ParseBlueprint b) <> None <->
   match parse_json b with
   | None => True
   | Some v => rejected_document v = true
   end) /\
  (forall e, snd (ParseBlueprint b) = Some e ->
     exists cause,
       snd (Unmarshal store_GeneralBlueprint b GeneralBlueprint_zero) = Some cause /\
       e = withStack (withMessage cause ParseBlueprint_hint) /\
       Unwrap e = Some (withMessage cause ParseBlueprint_hint) /\
       Unwrap (withMessage cause ParseBlueprint_hint) = Some cause /\
       Cause e = cause /\
       forall jsonText,
         Error jsonText e = ParseBlueprint_hint +:+ ": " +:+ Error jsonText cause).
Proof.
  split.
  - rewrite ParseBlueprint_spec.
    destruct (parse_json b) as [[ | | | | | ms] | ]; cbn [snd rejected_document];
      try (split; [reflexivity || (intros _; exact I) | discriminate]).
    + split; [intros H; now contradiction H | discriminate].
    + destruct (first_rejection ms) eqn:E; cbn [snd].
      * split; [| discriminate]. intros _.
        destruct (existsb rejected_member ms) eqn:Ex; [reflexivity |].
        apply first_rejection_None in Ex. congruence.
      * split; [intros H; now contradiction H |].
        intros Ex. apply first_rejection_None in E. congruence.
  - intros e He. destruct (ParseBlueprint_cause b e He) as (cause & Hc & ->).
    exists cause. repeat split; try assumption.
    cbn [Cause]. eapply Unmarshal_GeneralBlueprint_error. exact Hc.
Qed.

Lemma ParseBlueprint_fails_iff_witness :
  snd (ParseBlueprint (json_lit "{'blueprintApi':")) <> None /\
  snd (ParseBlueprint (json_lit "{'blueprintApi':42}")) <> None.
Proof.
  split.
  - apply (proj1 (ParseBlueprint_fails_iff (json_lit "{'blueprintApi':"))).
    vm_compute. exact I.
  - apply (proj1 (ParseBlueprint_fails_iff (json_lit "{'blueprintApi':42}"))).
    vm_compute. reflexivity.
Defined.

(** C7, as the code has it: next to a blueprintApi key that holds a string,
    a field whose key differs from blueprintApi only in the case of its
    letters and that holds a number makes the version discovery fail. *)
Lemma ParseBlueprint_case_variant_fails :
  parse_json (json_lit "{'blueprintApi':'v1','BLUEPRINTAPI':42}")
  = Some (JObject [("blueprintApi", json_lit "'v1'", JString "v1");
                   ("BLUEPRINTAPI", "42", JNumber "42")]) /\
  ParseBlueprint (json_lit "{'blueprintApi':'v1','BLUEPRINTAPI':42}") =
  (GeneralBlueprint_zero,
   Some (withStack (withMessage (UnmarshalTypeError "number" "json.BlueprintApi")
                                ParseBlueprint_hint))).
Proof. split; vm_compute; reflexivity. Qed.

(** C7 (amended): for every well-formed JSON object whose blueprintApi key
    holds a string [s] and in which no other key is blueprintApi up to the
    case of its letters, [ParseBlueprint] succeeds and returns [s] as the
    [API], whatever the other members are and whatever they hold. *)
Theorem ParseBlueprint_ignores_other_fields
    (b raw s : string) (before after : list member) :
  parse_json b = Some (JObject (before ++ ("blueprintApi", raw, JString s) :: after)) ->
  (forall m, In m (before ++ after) -> names_field "blueprintApi" (m_key m) = false) ->
  ParseBlueprint b = (mkGeneralBlueprint s, None).
Proof.
  intros Hp Hother. rewrite ParseBlueprint_spec, Hp.
  assert (Hb : forall m, In m before -> names_field "blueprintApi" (m_key m) = false)
    by (intros m Hm; apply Hother, in_or_app; left; exact Hm).
  assert (Ha : forall m, In m after -> names_field "blueprintApi" (m_key m) = false)
    by (intros m Hm; apply Hother, in_or_app; right; exact Hm).
  rewrite first_rejection_unnamed.
  - rewrite declared_api_app. cbn [declared_api m_key m_val fst snd].
    change (names_field "blueprintApi" "blueprintApi") with true. cbn iota.
    rewrite (declared_api_unnamed after) by exact Ha. reflexivity.
  - intros m Hm. apply in_app_or in Hm as [Hm | [<- | Hm]].
    + unfold rejected_member. rewrite (Hb m Hm). reflexivity.
    + unfold rejected_member. cbn [m_val snd string_or_null negb].
      apply andb_false_r.
    + unfold rejected_member. rewrite (Ha m Hm). reflexivity.
Qed.

Lemma ParseBlueprint_ignores_other_fields_witness :
  ParseBlueprint
    (json_lit "{'blueprintId':7,'blueprintApi':'v1','dogus':{'name':[null]},'packages':'x'}")
  = (mkGeneralBlueprint "v1", None).
Proof.
  apply (ParseBlueprint_ignores_other_fields _ (json_lit "'v1'") "v1"
           [("blueprintId", "7", JNumber "7")]
           [("dogus", json_lit "{'name':[null]}",
             JObject [("name", "[null]", JArray [JNull])]);
            ("packages", json_lit "'x'", JString "x")]).
  - vm_compute; reflexivity.
  - intros m [<- | [<- | [<- | []]]]; vm_compute; reflexivity.
Defined.

(** C8, as the code has it: an object whose only key is BLUEPRINTAPI has no
    blueprintApi key, and the [API] that is returned for it is not empty. *)
Lemma ParseBlueprint_upper_case_key :
  parse_json (json_lit "{'BLUEPRINTAPI':'v1'}")
  = Some (JObject [("BLUEPRINTAPI", json_lit "'v1'", JString "v1")]) /\
  ParseBlueprint (json_lit "{'BLUEPRINTAPI':'v1'}") = (mkGeneralBlueprint "v1", None).
Proof. split; vm_compute; reflexivity. Qed.

(** C8 (amended): for every well-formed JSON object none of whose keys is
    blueprintApi up to the case of its letters, the empty object among
    them, [ParseBlueprint] succeeds and the [API] it returns is empty. *)
Theorem ParseBlueprint_undeclared (b : string) (ms : list member) :
  parse_json b = Some (JObject ms) ->
  (forall m, In m ms -> names_field "blueprintApi" (m_key m) = false) ->
  ParseBlueprint b = (mkGeneralBlueprint EmptyString, None).
Proof.
  intros Hp Hms. rewrite ParseBlueprint_spec, Hp.
  rewrite first_rejection_unnamed.
  - rewrite declared_api_unnamed by exact Hms. reflexivity.
  - intros m Hm. unfold rejected_member. rewrite (Hms m Hm). reflexivity.
Qed.

Lemma ParseBlueprint_undeclared_witness :
  ParseBlueprint "{}" = (mkGeneralBlueprint EmptyString, None) /\
  ParseBlueprint (json_lit "{'blueprintId':'x','dogus':[]}")
  = (mkGeneralBlueprint EmptyString, None).
Proof.
  split.
  - apply (ParseBlueprint_undeclared "{}" []).
    + vm_compute; reflexivity.
    + intros m [].
  - apply (ParseBlueprint_undeclared _
             [("blueprintId", json_lit "'x'", JString "x"); ("dogus", "[]", JArray [])]).
    + vm_compute; reflexivity.
    + intros m [<- | [<- | []]]; vm_compute; reflexivity.
Defined.

(** [json.Unmarshal] itself can return an error next to a target it has
    already written to: here the first blueprintApi was stored before the
    second one was rejected. *)
Example Unmarshal_partial_with_error :
  Unmarshal store_GeneralBlueprint
    (json_lit "{'blueprintApi':'v1','blueprintApi':1}") GeneralBlueprint_zero
  = (mkGeneralBlueprint "v1", Some (UnmarshalTypeError "number" "json.BlueprintApi")).
Proof. vm_compute; reflexivity. Qed.

(** C10: whenever [ParseBlueprint] returns an error, the [GeneralBlueprint]
    next to it is the zero value, its [API] the empty string. *)
Theorem ParseBlueprint_error_zero (b : string) (gb : GeneralBlueprint) (e : error) :
  ParseBlueprint b = (gb, Some e) ->
  gb = GeneralBlueprint_zero /\ API gb = EmptyString.
Proof.
  unfold ParseBlueprint.
  destruct (Unmarshal store_GeneralBlueprint b GeneralBlueprint_zero) as [g [c |]].
  - intros [= <- _]. split; reflexivity.
  - discriminate.
Qed.

Lemma ParseBlueprint_error_zero_witness :
  mkGeneralBlueprint EmptyString = GeneralBlueprint_zero /\
  API (mkGeneralBlueprint EmptyString) = EmptyString.
Proof.
  apply (ParseBlueprint_error_zero
           (json_lit "{'blueprintApi':'v1','blueprintApi':1}")
           (mkGeneralBlueprint EmptyString)
           (withStack (withMessage (UnmarshalTypeError "number" "json.BlueprintApi")
                                   ParseBlueprint_hint))).
  vm_compute; reflexivity.
Defined.

(** ** The version 1 document *)

Lemma saveError_returned (e : error) (d : dstate) :
  returned (saveError e d) = returned d.
Proof. unfold saveError. destruct (savedError d); reflexivity. Qed.

Lemma store_string_returned (ty cur : string) (v : json) (d : dstate) :
  returned (snd (store_string ty cur v d)) = returned d.
Proof. destruct v; cbn; try apply saveError_returned; reflexivity. Qed.

(** Once an error has been returned, the remaining members are skipped. *)
Lemma store_members_returned {T : Type} fields set (cur : T) ms d e :
  returned d = Some e ->
  store_members fields set cur ms d = (cur, d).
Proof.
  intros H. induction ms as [| m ms IH]; [reflexivity |].
  rewrite store_members_cons, H. exact IH.
Qed.

Lemma store_members_app {T : Type} fields set (cur : T) ms1 ms2 d :
  store_members fields set cur (ms1 ++ ms2) d =
  let '(cur', d') := store_members fields set cur ms1 d in
  store_members fields set cur' ms2 d'.
Proof.
  unfold store_members. rewrite fold_left_app.
  destruct (fold_left _ ms1 (cur, d)). reflexivity.
Qed.




(** ** Arrays stored into a new slice *)

Section FreshSlices.
Context {T : Type} (zeroT : T) (storeT : T -> json -> dstate -> T * dstate).

(** Into a slice without spare slots, the decoder appends: every element of
    the array is stored into a zero value, which becomes the next element
    of the slice. *)
Lemma store_elems_fresh (vs : list json) :
  forall (l : list T) (d : dstate) (s' : slice T) (d' : dstate),
    store_elems zeroT storeT (length l) vs (mkSlice l (length l)) d = (s', d') ->
    returned d' = None ->
    exists xs,
      s' = mkSlice (l ++ xs) (length (l ++ xs)) /\
      Forall2 (fun v x => exists d0, x = fst (storeT zeroT v d0)) vs xs.
Proof.
  induction vs as [| v vs IH]; intros l d s' d' H Hret.
  - cbn [store_elems len data] in H. rewrite Nat.ltb_irrefl in H.
    exists []. rewrite app_nil_r. split; [| constructor].
    destruct l as [| a l]; cbn in H; injection H as <- _; reflexivity.
  - cbn [store_elems len data] in H. rewrite Nat.leb_refl in H.
    cbn [len data] in H.
    replace (S (length l) - length l)%nat with 1%nat in H by lia.
    cbn [replicate] in H.
    rewrite app_nth2 in H by (apply Nat.le_refl).
    rewrite Nat.sub_diag in H. cbn [nth] in H.
    destruct (storeT zeroT v d) as [x d1] eqn:Ex.
    replace (<[length l := x]> (l ++ [zeroT])%list) with (l ++ [x])%list in H.
    2:{ clear. induction l as [| a l IHl]; [reflexivity |].
        cbn. f_equal. exact IHl. }
    destruct (returned d1) as [e |] eqn:Hr1.
    + injection H as <- <-. congruence.
    + replace (S (length l)) with (length (l ++ [x])%list) in H
        by (rewrite length_app; cbn; lia).
      destruct (IH (l ++ [x])%list d1 s' d' H Hret) as (xs & -> & HF).
      exists (x :: xs). rewrite <- app_assoc. cbn [app]. split; [reflexivity |].
      constructor; [| exact HF]. exists d. rewrite Ex. reflexivity.
Qed.
End FreshSlices.

(** ** The members of a version 1 document *)

Ltac split_field f :=
  repeat match goal with
         | |- context [String.eqb f ?n] => destruct (String.eqb_spec f n)
         end.

Ltac open_pairs :=
  repeat match goal with
         | |- context [let '(_, _) := ?e in _] => destruct e
         end.


Lemma set_BlueprintV1_Packages_other dec (f : string) (cur : BlueprintV1) (m : member) d :
  f <> "packages" ->
  Packages (fst (set_BlueprintV1 dec f cur m d)) = Packages cur.
Proof.
  intros Hf. unfold set_BlueprintV1. destruct cur.
  split_field f; try congruence; open_pairs; reflexivity.
Qed.


Lemma store_members_BlueprintV1_Packages dec (ms : list member) :
  forall (cur : BlueprintV1) (d : dstate),
    (forall m, In m ms -> names_field "packages" (m_key m) = false) ->
    Packages (fst (store_members BlueprintV1_fields (set_BlueprintV1 dec) cur ms d))
    = Packages cur.
Proof.
  induction ms as [| m ms IH]; intros cur d H; [reflexivity |].
  rewrite store_members_cons.
  assert (Hms : forall m', In m' ms -> names_field "packages" (m_key m') = false)
    by (intros m' Hm'; apply H; right; exact Hm').
  destruct (returned d); [apply IH; exact Hms |].
  destruct (lookupField BlueprintV1_fields (m_key m)) as [f |] eqn:Hf;
    [| apply IH; exact Hms].
  apply lookupField_Some in Hf as [_ Hn].
  assert (Hne : f <> "packages").
  { intros ->. rewrite (H m) in Hn by (left; reflexivity). discriminate. }
  pose proof (set_BlueprintV1_Packages_other dec f cur m d Hne) as E.
  destruct (set_BlueprintV1 dec f cur m d) as [c1 d1]. cbn [fst] in E.
  rewrite IH by exact Hms. exact E.
Qed.













(** The two documents of the specification, decoded. *)
Example Unmarshal_BlueprintV1_nginx :
  Unmarshal_BlueprintV1 classic
    (json_lit "{'blueprintApi':'v1','blueprintId':'b','cesappVersion':'1.0','dogus':[{'name':'official/nginx','version':'1.2.3'}]}")
  = (mkBlueprintV1 (mkGeneralBlueprint "v1") "b" "1.0"
       (mkSlice [mkTargetDogu "official/nginx" "1.2.3" TargetStatePresent] 1)
       nil_slice ∅ nil_slice ∅, None).
Proof. vm_compute; reflexivity. Qed.

Example Unmarshal_BlueprintV1_minimal :
  Unmarshal_BlueprintV1 classic
    (json_lit "{'blueprintApi':'v1','blueprintId':'b','cesappVersion':'1.0'}")
  = (mkBlueprintV1 (mkGeneralBlueprint "v1") "b" "1.0"
       nil_slice nil_slice ∅ nil_slice ∅, None).
Proof. vm_compute; reflexivity. Qed.




(** * More of the package *)

(** ** The codec on every state *)

Lemma MarshalJSON_spec (state : TargetState) :
  MarshalJSON state =
  (if Z.eqb state TargetStatePresent then json_lit "'present'"
   else if Z.eqb state TargetStateAbsent then json_lit "'absent'"
   else json_lit "''", None).
Proof.
  unfold MarshalJSON. rewrite toString_at_spec.
  destruct (Z.eqb state TargetStatePresent); [reflexivity |].
  destruct (Z.eqb state TargetStateAbsent); reflexivity.
Qed.

(** What [UnmarshalJSON] stores for the output of [MarshalJSON]. *)
Lemma Unmarshal_Marshal (state before : TargetState) :
  UnmarshalJSON before (fst (MarshalJSON state)) =
  (if Z.eqb state TargetStateAbsent then TargetStateAbsent else TargetStatePresent, None).
Proof.
  rewrite MarshalJSON_spec, UnmarshalJSON_spec. cbn [fst].
  destruct (Z.eqb_spec state TargetStatePresent) as [-> | _]; [vm_compute; reflexivity |].
  destruct (Z.eqb state TargetStateAbsent); vm_compute; reflexivity.
Qed.

(** What a successful [UnmarshalJSON] stores is Present or Absent. *)
Lemma UnmarshalJSON_range (state st' : TargetState) (b : string) :
  UnmarshalJSON state b = (st', None) ->
  st' = TargetStatePresent \/ st' = TargetStateAbsent.
Proof.
  rewrite UnmarshalJSON_spec.
  destruct (parse_json b) as [[ | | | s | | ] | ]; try discriminate.
  - intros [= <-]. left; reflexivity.
  - intros [= <-]. rewrite toID_at_spec.
    destruct (String.eqb s "present"); [left; reflexivity |].
    destruct (String.eqb s "absent"); [right | left]; reflexivity.
Qed.

(** X1: for every state, the declared ones and all others, [MarshalJSON]
    returns no error and its bytes are well-formed JSON: the string literal
    whose text is what [String] returns for the state. *)
Theorem MarshalJSON_is_json_string (state : TargetState) :
  snd (MarshalJSON state) = None /\
  parse_json (fst (MarshalJSON state)) = Some (JString (TargetState_String state)).
Proof.
  split; [reflexivity |].
  unfold TargetState_String. rewrite MarshalJSON_spec, toString_at_spec. cbn [fst].
  destruct (Z.eqb state TargetStatePresent); [vm_compute; reflexivity |].
  destruct (Z.eqb state TargetStateAbsent); vm_compute; reflexivity.
Qed.

(** X2: encoding a state and decoding the bytes gives the state back exactly
    when the state is Present or Absent; every other state, Ignore among
    them, comes back as Present. *)
Theorem TargetState_roundtrip_iff (state before : TargetState) :
  (UnmarshalJSON before (fst (MarshalJSON state)) = (state, None) <->
   state = TargetStatePresent \/ state = TargetStateAbsent) /\
  (state <> TargetStateAbsent ->
   UnmarshalJSON before (fst (MarshalJSON state)) = (TargetStatePresent, None)).
Proof.
  rewrite Unmarshal_Marshal. split; [split |].
  - destruct (Z.eqb_spec state TargetStateAbsent) as [-> | Hn].
    + intros _. right; reflexivity.
    + intros [= <-]. left; reflexivity.
  - intros [-> | ->]; reflexivity.
  - intros Hn. destruct (Z.eqb_spec state TargetStateAbsent); [contradiction | reflexivity].
Qed.

Lemma TargetState_roundtrip_iff_witness :
  TargetStateIgnore <> TargetStateAbsent /\
  UnmarshalJSON TargetStateAbsent (fst (MarshalJSON TargetStateIgnore))
  = (TargetStatePresent, None).
Proof.
  assert (H : TargetStateIgnore <> TargetStateAbsent) by discriminate.
  split; [exact H |].
  exact (proj2 (TargetState_roundtrip_iff TargetStateIgnore TargetStateAbsent) H).
Defined.

(** X3: the two tables are inverse to each other: a state has a word in
    [toString] exactly when that word has the state in [toID]. *)
Theorem toString_toID_inverse (state : TargetState) (j : string) :
  toString !! state = Some j <-> toID !! j = Some state.
Proof.
  unfold toString, toID.
  rewrite !lookup_insert_Some, !lookup_empty.
  unfold TargetStatePresent, TargetStateAbsent.
  split.
  - intros [[<- <-] | [Hn [[<- <-] | [_ H]]]]; [| | discriminate H].
    + left. split; reflexivity.
    + right. split; [discriminate |]. left. split; reflexivity.
  - intros [[<- <-] | [Hn [[<- <-] | [_ H]]]]; [| | discriminate H].
    + left. split; reflexivity.
    + right. split; [discriminate |]. left. split; reflexivity.
Qed.

(** X4: a successful [UnmarshalJSON] stores Present or Absent, never Ignore
    or any other state, so what it stored is encoded to bytes that decode to
    it again. *)
Theorem UnmarshalJSON_stores_defined_state (state st' : TargetState) (b : string) :
  UnmarshalJSON state b = (st', None) ->
  (st' = TargetStatePresent \/ st' = TargetStateAbsent) /\
  forall before, UnmarshalJSON before (fst (MarshalJSON st')) = (st', None).
Proof.
  intros H. pose proof (UnmarshalJSON_range state st' b H) as Hr.
  split; [exact Hr |].
  intros before. rewrite Unmarshal_Marshal.
  destruct Hr as [-> | ->]; reflexivity.
Qed.

Lemma UnmarshalJSON_stores_defined_state_witness :
  (TargetStatePresent = TargetStatePresent \/ TargetStatePresent = TargetStateAbsent) /\
  forall before,
    UnmarshalJSON before (fst (MarshalJSON TargetStatePresent)) = (TargetStatePresent, None).
Proof.
  apply (UnmarshalJSON_stores_defined_state TargetStateIgnore TargetStatePresent
           (json_lit "'Absent'")).
  vm_compute; reflexivity.
Defined.

(** X5: [UnmarshalJSON] does not read its target.  The error is the same
    whatever the target held, and on success so is the value stored; the
    literal null, for one, sets a target that held Absent to Present. *)
Theorem UnmarshalJSON_overwrites (s1 s2 : TargetState) (b : string) :
  snd (UnmarshalJSON s1 b) = snd (UnmarshalJSON s2 b) /\
  (snd (UnmarshalJSON s1 b) = None ->
   fst (UnmarshalJSON s1 b) = fst (UnmarshalJSON s2 b)) /\
  (parse_json b = Some JNull -> UnmarshalJSON s1 b = (TargetStatePresent, None)).
Proof.
  rewrite !UnmarshalJSON_spec.
  destruct (parse_json b) as [[ | | | | | ] | ]; cbn [fst snd];
    repeat split; try reflexivity; try discriminate.
Qed.

Lemma UnmarshalJSON_overwrites_witness :
  UnmarshalJSON TargetStateAbsent "null" = (TargetStatePresent, None).
Proof.
  apply (proj2 (proj2 (UnmarshalJSON_overwrites TargetStateAbsent TargetStateIgnore "null"))).
  vm_compute; reflexivity.
Defined.

(** X6: the error of [ParseBlueprint] has one of three causes, by the
    input: the syntax error for bytes that are not JSON; for a top-level
    value that is neither an object nor null, a type error that names
    the kind of that value and the envelope type; for an object, a
    type error that names the API type and the kind of the value of the
    first member that names blueprintApi with neither a string nor null. *)
Theorem ParseBlueprint_error_causes (b : string) (e : error) :
  snd (ParseBlueprint b) = Some e ->
  (parse_json b = None /\ Cause e = SyntaxError) \/
  (exists v,
     parse_json b = Some v /\ (forall ms, v <> JObject ms) /\
     Cause e = UnmarshalTypeError (value_kind v) "json.GeneralBlueprint") \/
  (exists ms m,
     parse_json b = Some (JObject ms) /\ find rejected_member ms = Some m /\
     Cause e = UnmarshalTypeError (value_kind (m_val m)) "json.BlueprintApi").
Proof.
  rewrite ParseBlueprint_spec.
  destruct (parse_json b) as [[ | bb | lit | s | l | ms] | ]; cbn [snd];
    try (intros [= <-]; right; left; eexists; split; [reflexivity |];
         split; [intros ms; discriminate | reflexivity]).
  - discriminate.
  - unfold first_rejection. destruct (find rejected_member ms) as [m |] eqn:Hf; cbn [snd].
    + intros [= <-]. right; right. exists ms, m. repeat split; assumption || reflexivity.
    + discriminate.
  - intros [= <-]. left. split; reflexivity.
Qed.

Lemma ParseBlueprint_error_causes_witness :
  exists ms m,
    parse_json (json_lit "{'blueprintApi':null,'BlueprintApi':[1],'blueprintApi':{}}")
    = Some (JObject ms) /\
    find rejected_member ms = Some m /\
    Cause (withStack (withMessage (UnmarshalTypeError "array" "json.BlueprintApi")
                                  ParseBlueprint_hint))
    = UnmarshalTypeError (value_kind (m_val m)) "json.BlueprintApi".
Proof.
  destruct (ParseBlueprint_error_causes
              (json_lit "{'blueprintApi':null,'BlueprintApi':[1],'blueprintApi':{}}")
              (withStack (withMessage (UnmarshalTypeError "array" "json.BlueprintApi")
                                      ParseBlueprint_hint)))
    as [[H _] | [(v & H & Hv & _) | H]].
  - vm_compute; reflexivity.
  - vm_compute in H. discriminate H.
  - vm_compute in H. injection H as <-. exfalso. eapply Hv. reflexivity.
  - exact H.
Defined.

(** ** Errors are not forgotten *)

Lemma keeps_errors_refl (d : dstate) : keeps_errors d d.
Proof. split; intros H; exact H. Qed.

Lemma keeps_errors_trans (d1 d2 d3 : dstate) :
  keeps_errors d1 d2 -> keeps_errors d2 d3 -> keeps_errors d1 d3.
Proof. intros [A B] [C D]. split; intros H; [apply C, A | apply D, B]; exact H. Qed.

Lemma keeps_saveError (e : error) (d : dstate) : keeps_errors d (saveError e d).
Proof.
  unfold saveError. destruct d as [[s |] r]; cbn; split; intros H; try exact H.
  eexists; reflexivity.
Qed.

Lemma keeps_fail_with (e : error) (d : dstate) : keeps_errors d (fail_with e d).
Proof. split; intros H; [exact H | eexists; reflexivity]. Qed.

Lemma keeps_store_string (ty cur : string) (v : json) (d : dstate) :
  keeps_errors d (snd (store_string ty cur v d)).
Proof. destruct v; cbn; first [apply keeps_errors_refl | apply keeps_saveError]. Qed.

Lemma keeps_store_members {T : Type} fields
    (set : string -> T -> member -> dstate -> T * dstate) :
  (forall f cur m d, keeps_errors d (snd (set f cur m d))) ->
  forall ms cur d, keeps_errors d (snd (store_members fields set cur ms d)).
Proof.
  intros Hset. induction ms as [| m ms IH]; intros cur d; [apply keeps_errors_refl |].
  rewrite store_members_cons.
  destruct (returned d); [apply IH |].
  destruct (lookupField fields (m_key m)) as [f |]; [| apply IH].
  pose proof (Hset f cur m d) as H1.
  destruct (set f cur m d) as [c1 d1]. cbn [snd] in H1.
  eapply keeps_errors_trans; [exact H1 | apply IH].
Qed.

Lemma keeps_store_struct {T : Type} ty fields
    (set : string -> T -> member -> dstate -> T * dstate) :
  (forall f cur m d, keeps_errors d (snd (set f cur m d))) ->
  forall cur v d, keeps_errors d (snd (store_struct ty fields set cur v d)).
Proof.
  intros Hset cur v d. destruct v; cbn [store_struct snd];
    first [apply keeps_errors_refl | apply keeps_saveError
          | apply keeps_store_members; exact Hset].
Qed.

Lemma keeps_store_elems {T : Type} (zeroT : T)
    (storeT : T -> json -> dstate -> T * dstate) :
  (forall cur v d, keeps_errors d (snd (storeT cur v d))) ->
  forall vs i s d, keeps_errors d (snd (store_elems zeroT storeT i vs s d)).
Proof.
  intros Hst. induction vs as [| v vs IH]; intros i s d; [apply keeps_errors_refl |].
  cbn [store_elems].
  match goal with
  | |- context [storeT ?c v d] =>
      pose proof (Hst c v d) as H1; destruct (storeT c v d) as [x d1]
  end.
  cbn [snd] in H1. destruct (returned d1); [exact H1 |].
  eapply keeps_errors_trans; [exact H1 | apply IH].
Qed.

Lemma keeps_store_slice {T : Type} (zeroT : T)
    (storeT : T -> json -> dstate -> T * dstate) ty :
  (forall cur v d, keeps_errors d (snd (storeT cur v d))) ->
  forall cur v d, keeps_errors d (snd (store_slice zeroT storeT ty cur v d)).
Proof.
  intros Hst cur v d. destruct v; cbn [store_slice snd];
    first [apply keeps_errors_refl | apply keeps_saveError
          | apply keeps_store_elems; exact Hst].
Qed.

Lemma keeps_store_map {V : Type} (zeroV : V)
    (storeV : V -> json -> dstate -> V * dstate) ty :
  (forall cur v d, keeps_errors d (snd (storeV cur v d))) ->
  forall cur v d, keeps_errors d (snd (store_map zeroV storeV ty cur v d)).
Proof.
  intros Hst cur v d. destruct v as [ | | | | | ms]; cbn [store_map snd];
    try first [apply keeps_errors_refl | apply keeps_saveError].
  revert cur d. induction ms as [| m ms IH]; intros cur d; [apply keeps_errors_refl |].
  cbn [fold_left].
  destruct (returned d) eqn:Hd.
  - apply IH.
  - pose proof (Hst zeroV (m_val m) d) as H1.
    destruct (storeV zeroV (m_val m) d) as [x d1]. cbn [snd] in H1.
    destruct (returned d1); (eapply keeps_errors_trans; [exact H1 | apply IH]).
Qed.

Lemma keeps_store_interface dec (cur v : json) (d : dstate) :
  keeps_errors d (snd (store_interface dec cur v d)).
Proof.
  unfold store_interface. cbn [snd].
  destruct (interface_error dec v); [apply keeps_saveError | apply keeps_errors_refl].
Qed.

Lemma keeps_store_RegistryConfig dec (cur : RegistryConfig) (v : json) (d : dstate) :
  keeps_errors d (snd (store_RegistryConfig dec cur v d)).
Proof.
  unfold store_RegistryConfig. apply keeps_store_map.
  intros c w d0. apply keeps_store_map. apply keeps_store_interface.
Qed.

Lemma keeps_store_TargetState dec (cur : TargetState) (raw : string) (d : dstate) :
  keeps_errors d (snd (store_TargetState dec cur raw d)).
Proof.
  unfold store_TargetState. destruct (UnmarshalJSON cur raw) as [st [e |]]; cbn [snd];
    [| apply keeps_errors_refl].
  destruct (method_errors dec); [apply keeps_fail_with | apply keeps_saveError].
Qed.

Lemma keeps_set_TargetDogu dec (f : string) (cur : TargetDogu) (m : member) (d : dstate) :
  keeps_errors d (snd (set_TargetDogu dec f cur m d)).
Proof.
  unfold set_TargetDogu.
  destruct (String.eqb f "name").
  { pose proof (keeps_store_string "string" (Dogu_Name cur) (m_val m) d) as H.
    destruct (store_string "string" (Dogu_Name cur) (m_val m) d). exact H. }
  destruct (String.eqb f "version").
  { pose proof (keeps_store_string "string" (Dogu_Version cur) (m_val m) d) as H.
    destruct (store_string "string" (Dogu_Version cur) (m_val m) d). exact H. }
  destruct (String.eqb f "targetState"); [| apply keeps_errors_refl].
  pose proof (keeps_store_TargetState dec (Dogu_TargetState cur) (m_raw m) d) as H.
  destruct (store_TargetState dec (Dogu_TargetState cur) (m_raw m) d). exact H.
Qed.

Lemma keeps_set_TargetPackage dec (f : string) (cur : TargetPackage) (m : member) (d : dstate) :
  keeps_errors d (snd (set_TargetPackage dec f cur m d)).
Proof.
  unfold set_TargetPackage.
  destruct (String.eqb f "name").
  { pose proof (keeps_store_string "string" (Package_Name cur) (m_val m) d) as H.
    destruct (store_string "string" (Package_Name cur) (m_val m) d). exact H. }
  destruct (String.eqb f "version").
  { pose proof (keeps_store_string "string" (Package_Version cur) (m_val m) d) as H.
    destruct (store_string "string" (Package_Version cur) (m_val m) d). exact H. }
  destruct (String.eqb f "targetState"); [| apply keeps_errors_refl].
  pose proof (keeps_store_TargetState dec (Package_TargetState cur) (m_raw m) d) as H.
  destruct (store_TargetState dec (Package_TargetState cur) (m_raw m) d). exact H.
Qed.

Lemma keeps_set_GeneralBlueprint (f : string) (cur : GeneralBlueprint) (m : member) d :
  keeps_errors d (snd (set_GeneralBlueprint f cur m d)).
Proof.
  unfold set_GeneralBlueprint. destruct (String.eqb f "blueprintApi");
    [| apply keeps_errors_refl].
  pose proof (keeps_store_string "json.BlueprintApi" (API cur) (m_val m) d) as H.
  destruct (store_string "json.BlueprintApi" (API cur) (m_val m) d). exact H.
Qed.

Ltac keep_pair H :=
  match goal with
  | |- context [let '(_, _) := ?e in _] =>
      pose proof H as Hk; destruct e; exact Hk
  end.

Lemma keeps_set_BlueprintV1 dec (f : string) (cur : BlueprintV1) (m : member) d :
  keeps_errors d (snd (set_BlueprintV1 dec f cur m d)).
Proof.
  unfold set_BlueprintV1. destruct cur as [g id ces dogus packages rc rca rce].
  destruct (String.eqb f "blueprintApi").
  { keep_pair (keeps_set_GeneralBlueprint f g m d). }
  destruct (String.eqb f "blueprintId").
  { keep_pair (keeps_store_string "string" id (m_val m) d). }
  destruct (String.eqb f "cesappVersion").
  { keep_pair (keeps_store_string "string" ces (m_val m) d). }
  destruct (String.eqb f "dogus").
  { keep_pair (keeps_store_slice TargetDogu_zero (store_TargetDogu dec) "[]json.TargetDogu"
                 (keeps_store_struct "json.TargetDogu" name_fields (set_TargetDogu dec)
                    (keeps_set_TargetDogu dec)) dogus (m_val m) d). }
  destruct (String.eqb f "packages").
  { keep_pair (keeps_store_slice TargetPackage_zero (store_TargetPackage dec)
                 "[]json.TargetPackage"
                 (keeps_store_struct "json.TargetPackage" name_fields (set_TargetPackage dec)
                    (keeps_set_TargetPackage dec)) packages (m_val m) d). }
  destruct (String.eqb f "registryConfig").
  { keep_pair (keeps_store_RegistryConfig dec rc (m_val m) d). }
  destruct (String.eqb f "registryConfigAbsent").
  { keep_pair (keeps_store_slice EmptyString (store_string "string") "[]string"
                 (keeps_store_string "string") rca (m_val m) d). }
  destruct (String.eqb f "registryConfigEncrypted").
  { keep_pair (keeps_store_RegistryConfig dec rce (m_val m) d). }
  apply keeps_errors_refl.
Qed.

Lemma outcome_None (d : dstate) :
  outcome d = None <-> savedError d = None /\ returned d = None.
Proof.
  unfold outcome. destruct d as [[s |] [r |]]; cbn; split;
    try discriminate; try (intros [? ?]; discriminate); try reflexivity.
  intros _; split; reflexivity.
Qed.

(** When nothing is wrong at the end, nothing was wrong before. *)
Lemma keeps_errors_clean (d d' : dstate) :
  keeps_errors d d' -> outcome d' = None -> outcome d = None.
Proof.
  intros [Hs Hr] H. apply outcome_None in H as [H1 H2]. apply outcome_None.
  split.
  - destruct (savedError d) as [e |]; [| reflexivity].
    destruct Hs as [x Hx]; [eexists; reflexivity | congruence].
  - destruct (returned d) as [e |]; [| reflexivity].
    destruct Hr as [x Hx]; [eexists; reflexivity | congruence].
Qed.

(** ** The envelope inside a version 1 document *)

Lemma lookupField_V1_blueprintApi (k : string) :
  names_field "blueprintApi" k = true ->
  lookupField BlueprintV1_fields k = Some "blueprintApi".
Proof.
  unfold names_field. intros H. apply String.eqb_eq in H.
  change (foldName "blueprintApi") with "BLUEPRINTAPI" in H.
  unfold lookupField, BlueprintV1_fields. cbn [find].
  repeat match goal with
         | |- context [String.eqb k ?n] =>
             destruct (String.eqb_spec k n) as [-> | ?];
             [first [reflexivity | vm_compute in H; discriminate] |]
         end.
  rewrite <- H. vm_compute. reflexivity.
Qed.

Lemma set_BlueprintV1_blueprintApi dec g id ces dogus packages rc rca rce (m : member) d :
  set_BlueprintV1 dec "blueprintApi" (mkBlueprintV1 g id ces dogus packages rc rca rce) m d =
  let '(a, d') := store_string "json.BlueprintApi" (API g) (m_val m) d in
  (mkBlueprintV1 (mkGeneralBlueprint a) id ces dogus packages rc rca rce, d').
Proof.
  unfold set_BlueprintV1, set_GeneralBlueprint. cbn [String.eqb Ascii.eqb Bool.eqb].
  destruct (store_string "json.BlueprintApi" (API g) (m_val m) d). reflexivity.
Qed.

Lemma set_BlueprintV1_envelope_other dec (f : string) (cur : BlueprintV1) (m : member) d :
  f <> "blueprintApi" ->
  bpGeneralBlueprint (fst (set_BlueprintV1 dec f cur m d)) = bpGeneralBlueprint cur.
Proof.
  intros Hf. unfold set_BlueprintV1. destruct cur.
  split_field f; try congruence; open_pairs; reflexivity.
Qed.

(** The members of a document that is decoded without an error: the
    envelope ends with the version they declare, and none of them is
    rejected as a blueprintApi. *)
Lemma store_members_BlueprintV1_envelope dec (ms : list member) :
  forall (cur c' : BlueprintV1) (d d' : dstate),
    store_members BlueprintV1_fields (set_BlueprintV1 dec) cur ms d = (c', d') ->
    outcome d' = None ->
    API (bpGeneralBlueprint c') = declared_api ms (API (bpGeneralBlueprint cur)) /\
    first_rejection ms = None.
Proof.
  induction ms as [| m ms IH]; intros cur c' d d' H Hok.
  - rewrite store_members_nil in H. injection H as <- <-. split; reflexivity.
  - assert (Hd : outcome d = None).
    { eapply keeps_errors_clean; [| exact Hok].
      pose proof (keeps_store_members BlueprintV1_fields (set_BlueprintV1 dec)
                    (keeps_set_BlueprintV1 dec) (m :: ms) cur d) as K.
      rewrite H in K. exact K. }
    apply outcome_None in Hd as [Hs Hr].
    rewrite store_members_cons, Hr in H.
    cbn [declared_api]. unfold first_rejection. cbn [find]. unfold rejected_member at 1.
    destruct (names_field "blueprintApi" (m_key m)) eqn:Hn; cbn [andb].
    + rewrite (lookupField_V1_blueprintApi _ Hn) in H.
      destruct cur as [g id ces dogus packages rc rca rce].
      rewrite set_BlueprintV1_blueprintApi in H. cbn [bpGeneralBlueprint].
      destruct (store_string "json.BlueprintApi" (API g) (m_val m) d) as [a d1] eqn:Es.
      assert (Hd1 : outcome d1 = None).
      { eapply keeps_errors_clean; [| exact Hok].
        pose proof (keeps_store_members BlueprintV1_fields (set_BlueprintV1 dec)
                      (keeps_set_BlueprintV1 dec) ms
                      (mkBlueprintV1 (mkGeneralBlueprint a) id ces dogus packages rc rca rce)
                      d1) as K.
        rewrite H in K. exact K. }
      destruct (IH _ _ _ _ H Hok) as [E1 E2]. cbn [bpGeneralBlueprint API] in E1.
      destruct (m_val m) eqn:Hv; cbn [store_string value_kind] in Es;
        injection Es as <- <-; cbn [string_or_null negb];
        try (split; [exact E1 | exact E2]);
        exfalso; apply outcome_None in Hd1 as [Hs1 _];
        unfold saveError in Hs1; rewrite Hs in Hs1; discriminate Hs1.
    + destruct (lookupField BlueprintV1_fields (m_key m)) as [f |] eqn:Hf.
      * apply lookupField_Some in Hf as [_ Hnf].
        assert (Hne : f <> "blueprintApi") by (intros ->; congruence).
        pose proof (set_BlueprintV1_envelope_other dec f cur m d Hne) as E.
        destruct (set_BlueprintV1 dec f cur m d) as [c1 d1]. cbn [fst] in E.
        destruct (IH _ _ _ _ H Hok) as [E1 E2]. rewrite E in E1.
        split; [exact E1 | exact E2].
      * destruct (IH _ _ _ _ H Hok) as [E1 E2]. split; [exact E1 | exact E2].
Qed.

(** X7: the two phases agree.  Whenever a document is decoded into a new
    [BlueprintV1] without an error, [ParseBlueprint] succeeds on the same
    bytes and returns the envelope that the decoded document embeds. *)
Theorem ParseBlueprint_agrees_with_BlueprintV1 dec (b : string) (bp : BlueprintV1) :
  Unmarshal_BlueprintV1 dec b = (bp, None) ->
  ParseBlueprint b = (bpGeneralBlueprint bp, None).
Proof.
  unfold Unmarshal_BlueprintV1, Unmarshal. rewrite ParseBlueprint_spec.
  destruct (parse_json b) as [[ | bb | lit | s | l | ms] | ];
    cbn [store_BlueprintV1 store_struct]; try discriminate.
  - unfold store_BlueprintV1, store_struct. intros [= <-]. reflexivity.
  - unfold store_BlueprintV1, store_struct.
    destruct (store_members BlueprintV1_fields (set_BlueprintV1 dec) BlueprintV1_zero
                ms dstate0) as [c' d'] eqn:E.
    intros [= <- Hok].
    destruct (store_members_BlueprintV1_envelope dec ms _ _ _ _ E Hok) as [E1 E2].
    rewrite E2. cbn [bpGeneralBlueprint BlueprintV1_zero API GeneralBlueprint_zero] in E1.
    rewrite <- E1. destruct (bpGeneralBlueprint c'). reflexivity.
Qed.

Lemma ParseBlueprint_agrees_with_BlueprintV1_witness :
  ParseBlueprint
    (json_lit "{'blueprintApi':'v1','blueprintId':'b','cesappVersion':'1.0','dogus':[{'name':'official/nginx','version':'1.2.3'}]}")
  = (mkGeneralBlueprint "v1", None).
Proof.
  apply (ParseBlueprint_agrees_with_BlueprintV1 classic _
           (mkBlueprintV1 (mkGeneralBlueprint "v1") "b" "1.0"
              (mkSlice [mkTargetDogu "official/nginx" "1.2.3" TargetStatePresent] 1)
              nil_slice ∅ nil_slice ∅)).
  vm_compute; reflexivity.
Defined.

(** ** Packages *)

Lemma set_TargetPackage_other dec (f : string) (cur : TargetPackage) (m : member) (d : dstate) :
  f <> "targetState" ->
  Package_TargetState (fst (set_TargetPackage dec f cur m d)) = Package_TargetState cur /\
  returned (snd (set_TargetPackage dec f cur m d)) = returned d.
Proof.
  intros Hf. unfold set_TargetPackage.
  destruct (String.eqb_spec f "name") as [_ | _].
  - pose proof (store_string_returned "string" (Package_Name cur) (m_val m) d) as Hr.
    destruct (store_string "string" (Package_Name cur) (m_val m) d) as [x d'].
    split; [reflexivity | exact Hr].
  - destruct (String.eqb_spec f "version") as [_ | _].
    + pose proof (store_string_returned "string" (Package_Version cur) (m_val m) d) as Hr.
      destruct (store_string "string" (Package_Version cur) (m_val m) d) as [x d'].
      split; [reflexivity | exact Hr].
    + destruct (String.eqb_spec f "targetState") as [E | _]; [contradiction |].
      split; reflexivity.
Qed.

Lemma store_members_TargetPackage_unnamed dec (ms : list member) :
  forall (cur : TargetPackage) (d : dstate),
    (forall m, In m ms -> names_field "targetState" (m_key m) = false) ->
    Package_TargetState (fst (store_members name_fields (set_TargetPackage dec) cur ms d))
    = Package_TargetState cur /\
    returned (snd (store_members name_fields (set_TargetPackage dec) cur ms d)) = returned d.
Proof.
  induction ms as [| m ms IH]; intros cur d H; [split; reflexivity |].
  rewrite store_members_cons.
  assert (Hm : names_field "targetState" (m_key m) = false) by (apply H; left; reflexivity).
  assert (Hms : forall m', In m' ms -> names_field "targetState" (m_key m') = false)
    by (intros m' Hm'; apply H; right; exact Hm').
  destruct (returned d) as [e |] eqn:Hd.
  - rewrite (store_members_returned _ _ _ _ _ e Hd). cbn [fst snd].
    split; [reflexivity | exact Hd].
  - destruct (lookupField name_fields (m_key m)) as [f |] eqn:Hf.
    + apply lookupField_Some in Hf as [_ Hn].
      assert (Hne : f <> "targetState") by (intros ->; congruence).
      destruct (set_TargetPackage_other dec f cur m d Hne) as [H1 H2].
      destruct (set_TargetPackage dec f cur m d) as [c1 d1]. cbn [fst snd] in H1, H2.
      destruct (IH c1 d1 Hms) as [-> ->]. split; congruence.
    + destruct (IH cur d Hms) as [-> ->]. split; [reflexivity | exact Hd].
Qed.

Lemma lookupField_packages (k : string) :
  names_field "packages" k = true ->
  lookupField BlueprintV1_fields k = Some "packages".
Proof.
  unfold names_field. intros H. apply String.eqb_eq in H.
  change (foldName "packages") with "PACKAGES" in H.
  unfold lookupField, BlueprintV1_fields. cbn [find].
  repeat match goal with
         | |- context [String.eqb k ?n] =>
             destruct (String.eqb_spec k n) as [-> | ?];
             [first [reflexivity | vm_compute in H; discriminate] |]
         end.
  rewrite <- H. vm_compute. reflexivity.
Qed.

Lemma set_BlueprintV1_packages dec g id ces dogus packages rc rca rce (m : member) d :
  set_BlueprintV1 dec "packages" (mkBlueprintV1 g id ces dogus packages rc rca rce) m d =
  let '(x, d') :=
    store_slice TargetPackage_zero (store_TargetPackage dec) "[]json.TargetPackage"
                packages (m_val m) d in
  (mkBlueprintV1 g id ces dogus x rc rca rce, d').
Proof. reflexivity. Qed.

(** X8: packages are decoded like dogus.  When a document has one member
    that names packages, which holds an array, and is decoded without an
    error into a new [BlueprintV1], the packages are as many as the entries
    of the array, and every entry that is an object none of whose keys names
    targetState gives a [TargetPackage] whose target state is Present. *)
Theorem BlueprintV1_packages_default dec (b k raw : string) (bp : BlueprintV1)
    (before after : list member) (es : list json) :
  parse_json b = Some (JObject (before ++ (k, raw, JArray es) :: after)) ->
  names_field "packages" k = true ->
  (forall m, In m (before ++ after) -> names_field "packages" (m_key m) = false) ->
  Unmarshal_BlueprintV1 dec b = (bp, None) ->
  length (elems (Packages bp)) = length es /\
  forall (i : nat) (ms : list member),
    es !! i = Some (JObject ms) ->
    (forall m, In m ms -> names_field "targetState" (m_key m) = false) ->
    exists package,
      elems (Packages bp) !! i = Some package /\
      Package_TargetState package = TargetStatePresent.
Proof.
  intros Hp Hk Hother.
  assert (Hb : forall m, In m before -> names_field "packages" (m_key m) = false)
    by (intros m Hm; apply Hother, in_or_app; left; exact Hm).
  assert (Ha : forall m, In m after -> names_field "packages" (m_key m) = false)
    by (intros m Hm; apply Hother, in_or_app; right; exact Hm).
  unfold Unmarshal_BlueprintV1, Unmarshal. rewrite Hp.
  unfold store_BlueprintV1, store_struct.
  rewrite store_members_app.
  pose proof (store_members_BlueprintV1_Packages dec before BlueprintV1_zero dstate0 Hb) as E1.
  destruct (store_members BlueprintV1_fields (set_BlueprintV1 dec) BlueprintV1_zero
              before dstate0) as [c1 d1].
  cbn [fst Packages BlueprintV1_zero] in E1.
  rewrite store_members_cons.
  destruct (returned d1) as [e |] eqn:Hd1.
  { rewrite (store_members_returned _ _ _ _ _ e Hd1).
    unfold outcome. rewrite Hd1. discriminate. }
  cbn [m_key fst]. rewrite (lookupField_packages k Hk).
  destruct c1 as [g id ces dogus packages rc rca rce]. cbn [Packages] in E1. subst packages.
  rewrite set_BlueprintV1_packages. cbn [m_val snd store_slice].
  destruct (store_elems TargetPackage_zero (store_TargetPackage dec) 0 es nil_slice d1)
    as [s2 d2] eqn:E2.
  pose proof (store_members_BlueprintV1_Packages dec after
                (mkBlueprintV1 g id ces dogus s2 rc rca rce) d2 Ha) as E3.
  destruct (returned d2) as [e |] eqn:Hd2.
  { rewrite (store_members_returned _ _ _ _ _ e Hd2).
    unfold outcome. rewrite Hd2. discriminate. }
  destruct (store_members BlueprintV1_fields (set_BlueprintV1 dec)
              (mkBlueprintV1 g id ces dogus s2 rc rca rce) after d2) as [c3 d3].
  cbn [fst Packages] in E3. cbv beta iota zeta. intros [= <- _]. rewrite E3.
  destruct (store_elems_fresh TargetPackage_zero (store_TargetPackage dec) es [] d1 s2 d2 E2 Hd2)
    as (xs & -> & HF).
  cbn [app]. unfold elems. cbn [len data]. rewrite firstn_all.
  split; [symmetry; eapply Forall2_length; exact HF |].
  intros i ms Hi Hms.
  destruct (Forall2_lookup_l _ _ _ _ _ HF Hi) as (p & Hd & d0 & ->).
  eexists. split; [exact Hd |].
  unfold store_TargetPackage, store_struct.
  rewrite (proj1 (store_members_TargetPackage_unnamed dec ms TargetPackage_zero d0 Hms)).
  reflexivity.
Qed.

Lemma BlueprintV1_packages_default_witness :
  exists package,
    elems (Packages (mkBlueprintV1 GeneralBlueprint_zero EmptyString EmptyString nil_slice
                       (mkSlice [mkTargetPackage "vim" "8.2" TargetStatePresent] 1)
                       ∅ nil_slice ∅)) !! 0%nat = Some package /\
    Package_TargetState package = TargetStatePresent.
Proof.
  refine (proj2 (BlueprintV1_packages_default classic
            (json_lit "{'x':1,'Packages':[{'name':'vim','version':'8.2'}]}")
            "Packages"
            (json_lit "[{'name':'vim','version':'8.2'}]")
            _
            [("x", "1", JNumber "1")]
            []
            [JObject [("name", json_lit "'vim'", JString "vim");
                      ("version", json_lit "'8.2'", JString "8.2")]]
            _ _ _ _) 0%nat _ _ _).
  - vm_compute; reflexivity.
  - vm_compute; reflexivity.
  - intros m [<- | []]; vm_compute; reflexivity.
  - vm_compute; reflexivity.
  - reflexivity.
  - intros m [<- | [<- | []]]; vm_compute; reflexivity.
Defined.

(** ** A target state that is no string *)









(** The two policies on one entry: both end with an error and leave the
    target state alone; only the classic one stops before the version. *)
Example store_TargetDogu_policies :
  let entry := JObject [("targetState", "42", JNumber "42");
                        ("version", json_lit "'1'", JString "1")] in
  Dogu_Version (fst (store_TargetDogu classic TargetDogu_zero entry dstate0)) = EmptyString /\
  Dogu_Version (fst (store_TargetDogu (mkDecoder (fun _ => true) (SaveAndGoOn id))
                       TargetDogu_zero entry dstate0)) = "1".
Proof. split; vm_compute; reflexivity. Qed.

(** ** The version discovery reads nothing but blueprintApi *)

Lemma declared_api_values (ms : list member) :
  forall cur, declared_api ms cur = last_string (api_values ms) cur.
Proof.
  unfold api_values, last_string.
  induction ms as [| m ms IH]; intros cur; [reflexivity |].
  cbn [declared_api List.filter].
  destruct (names_field "blueprintApi" (m_key m)); cbn [map fold_left]; apply IH.
Qed.

Lemma first_rejection_values (ms : list member) :
  first_rejection ms =
  match first_unfit (api_values ms) with
  | Some v => Some (UnmarshalTypeError (value_kind v) "json.BlueprintApi")
  | None => None
  end.
Proof.
  unfold first_rejection, first_unfit, api_values.
  induction ms as [| m ms IH]; [reflexivity |].
  cbn [find List.filter]. unfold rejected_member at 1.
  destruct (names_field "blueprintApi" (m_key m)); cbn [andb map find]; [| exact IH].
  destruct (negb (string_or_null (m_val m))); [reflexivity | exact IH].
Qed.

(** X10: [ParseBlueprint] reads nothing of an object but the values of the
    members that name blueprintApi.  Two documents that are objects and give
    the same such values in the same order get the same [GeneralBlueprint];
    both succeed or both fail; and when they fail, the causes of the two
    errors are type errors with the same Value and the same Type, that of
    the API.  (Where in the text the error arose is not part of this.) *)
Theorem ParseBlueprint_reads_only_blueprintApi (b1 b2 : string) (ms1 ms2 : list member) :
  parse_json b1 = Some (JObject ms1) ->
  parse_json b2 = Some (JObject ms2) ->
  api_values ms1 = api_values ms2 ->
  fst (ParseBlueprint b1) = fst (ParseBlueprint b2) /\
  (snd (ParseBlueprint b1) = None <-> snd (ParseBlueprint b2) = None) /\
  (forall e1 e2,
     snd (ParseBlueprint b1) = Some e1 ->
     snd (ParseBlueprint b2) = Some e2 ->
     exists Value,
       Cause e1 = UnmarshalTypeError Value "json.BlueprintApi" /\
       Cause e2 = UnmarshalTypeError Value "json.BlueprintApi").
Proof.
  intros H1 H2 E. rewrite !ParseBlueprint_spec, H1, H2.
  rewrite !first_rejection_values, !declared_api_values, E.
  destruct (first_unfit (api_values ms2)) as [v |]; cbn [fst snd].
  - split; [reflexivity |]. split; [split; discriminate |].
    intros e1 e2 [= <-] [= <-]. exists (value_kind v). split; reflexivity.
  - split; [reflexivity |]. split; [split; reflexivity |].
    intros e1 e2 He1. discriminate He1.
Qed.

Lemma ParseBlueprint_reads_only_blueprintApi_witness :
  fst (ParseBlueprint (json_lit "{'blueprintApi':42}"))
  = fst (ParseBlueprint (json_lit "{'x':1,'BLUEPRINTAPI':42}")) /\
  (snd (ParseBlueprint (json_lit "{'blueprintApi':42}")) = None <->
   snd (ParseBlueprint (json_lit "{'x':1,'BLUEPRINTAPI':42}")) = None) /\
  (forall e1 e2,
     snd (ParseBlueprint (json_lit "{'blueprintApi':42}")) = Some e1 ->
     snd (ParseBlueprint (json_lit "{'x':1,'BLUEPRINTAPI':42}")) = Some e2 ->
     exists Value,
       Cause e1 = UnmarshalTypeError Value "json.BlueprintApi" /\
       Cause e2 = UnmarshalTypeError Value "json.BlueprintApi").
Proof.
  apply (ParseBlueprint_reads_only_blueprintApi _ _
           [("blueprintApi", "42", JNumber "42")]
           [("x", "1", JNumber "1"); ("BLUEPRINTAPI", "42", JNumber "42")]).
  - vm_compute; reflexivity.
  - vm_compute; reflexivity.
  - vm_compute; reflexivity.
Defined.
